(** * trireme-lib: the batch iptables provider and the marked-connection listener

    A shallow embedding of two packages of the repository:

    - [provider] (the [BatchProvider] that caches rules per table and chain
      and programs them through [iptables-restore]), and
    - [markedconn] (the listener that recovers the original destination of a
      redirected connection).

    Go values are modelled as follows.  A [string] is a Rocq [string]; an
    [error] is an [option string] with [None] for [nil]; an [int] is a [Z]
    with the 64-bit wrap-around written out; a [map] is a [gmap]; a runtime
    panic is the [Panicked] outcome of the provider monad.  A slice is the
    [list] of its elements: the slice that the provider keeps for a chain is
    built from the previous slice of the same chain or from fresh literals,
    so no two chains share a backing array, and what a write through one
    slice does to the others cannot be seen in the store. *)

From stdpp Require Import gmap strings list fin_maps vector.
From Stdlib Require Import ZArith Lia Ascii.
From Stdlib.Strings Require Byte.

Local Open Scope string_scope.
Local Open Scope list_scope.
Local Open Scope Z_scope.

(** ** Go primitives used by the two packages *)

Module Go.

(** [error]: [None] is [nil]. *)
Definition error : Type := option string.

(** [int] on the 64-bit platforms the daemon is built for. *)
Definition int_min : Z := - 2 ^ 63.
Definition int_max : Z := 2 ^ 63 - 1.
Definition is_int (z : Z) : Prop := int_min <= z <= int_max.

Definition wrap (z : Z) : Z := (z + 2 ^ 63) mod 2 ^ 64 - 2 ^ 63.
Definition int_sub (a b : Z) : Z := wrap (a - b).
Definition int_add (a b : Z) : Z := wrap (a + b).
Definition int_shl (a n : Z) : Z := wrap (Z.shiftl a n).

(** [byte], and the conversion [int(b)]. *)
Definition byte : Type := Init.Byte.byte.
Definition int_of_byte (b : byte) : Z := Z.of_N (Byte.to_N b).

(** [len(s)] *)
Definition len {A : Type} (s : list A) : Z := Z.of_nat (length s).

(** [strings.Join(elems, sep)] *)
Definition Join (elems : list string) (sep : string) : string :=
  String.concat sep elems.

(** [s[lo:]]: the run-time check is [0 <= lo <= len(s)]; [None] is the
    "slice bounds out of range" panic. *)
Definition slice_from {A : Type} (s : list A) (lo : Z) : option (list A) :=
  if decide (0 <= lo <= len s) then Some (drop (Z.to_nat lo) s) else None.

(** [s[lo:hi]]: the run-time check is [0 <= lo <= hi <= cap(s)]; the model
    keeps no capacity and checks against [len(s)]. *)
Definition slice {A : Type} (s : list A) (lo hi : Z) : option (list A) :=
  if decide (0 <= lo <= hi /\ hi <= len s)
  then Some (take (Z.to_nat (hi - lo)) (drop (Z.to_nat lo) s)) else None.

(** [copy(s[d:], s[r:])] for two windows of one slice [s]: [copy] moves
    [min(len(dst), len(src))] elements and behaves like [memmove] on
    overlapping windows, so the elements written are the ones [s] held
    before the call.  The result is the new content of [s]. *)
Definition copy_within {A : Type} (s : list A) (d r : nat) : list A :=
  let n := Nat.min (length s - d) (length s - r) in
  take d s ++ take n (drop r s) ++ drop (d + n) s.

(** [s[i] = v]: [None] is the "index out of range" panic. *)
Definition store_index {A : Type} (s : list A) (i : Z) (v : A) : option (list A) :=
  if decide (0 <= i < len s) then Some (<[Z.to_nat i := v]> s) else None.

End Go.

Abbreviation error := Go.error.

(** ** Package provider *)

(** The calls of the [BaseIPTables] interface, as a client of the interface
    issues them. *)
Inductive Call : Type :=
| CallAppend (table chain : string) (rulespec : list string)
| CallInsert (table chain : string) (pos : Z) (rulespec : list string)
| CallDelete (table chain : string) (rulespec : list string)
| CallListChains (table : string)
| CallClearChain (table chain : string)
| CallDeleteChain (table chain : string)
| CallNewChain (table chain : string).

(** [BaseIPTables]: an implementation has a state of its own ([K], the kernel
    tables for go-iptables) that every method may read and change. *)
Class BaseIPTables (K : Type) : Type := {
  ipt_Append : string -> string -> list string -> K -> error * K;
  ipt_Insert : string -> string -> Z -> list string -> K -> error * K;
  ipt_Delete : string -> string -> list string -> K -> error * K;
  ipt_ListChains : string -> K -> (list string * error) * K;
  ipt_ClearChain : string -> string -> K -> error * K;
  ipt_DeleteChain : string -> string -> K -> error * K;
  ipt_NewChain : string -> string -> K -> error * K;
}.

(** What a call of a method leaves behind: it returned, or the goroutine
    panicked. *)
Inductive outcome (A : Type) : Type :=
| Returned (a : A)
| Panicked (reason : string).
Arguments Returned {A} a.
Arguments Panicked {A} reason.

Section Provider.

Context {K : Type} `{BaseIPTables K}.

(** [BatchProvider].  The embedded mutex is left out: every method holds it
    from entry to exit, so the methods are atomic state transformers. *)
Record BatchProvider : Type := mkBatchProvider {
  ipt : K;
  rules : gmap string (gmap string (list string));
  batchTables : gmap string bool;
  commitFunc : string -> error;
  restoreCmd : string;
}.

Definition set_ipt (k : K) (b : BatchProvider) : BatchProvider :=
  mkBatchProvider k (rules b) (batchTables b) (commitFunc b) (restoreCmd b).

Definition set_rules (r : gmap string (gmap string (list string)))
    (b : BatchProvider) : BatchProvider :=
  mkBatchProvider (ipt b) r (batchTables b) (commitFunc b) (restoreCmd b).

(** Methods run in a state monad over the provider, with panics. *)
Definition M (A : Type) : Type := BatchProvider -> outcome A * BatchProvider.

Definition ret {A : Type} (a : A) : M A := fun b => (Returned a, b).

Definition bind {A B : Type} (m : M A) (f : A -> M B) : M B :=
  fun b =>
    match m b with
    | (Returned a, b') => f a b'
    | (Panicked reason, b') => (Panicked reason, b')
    end.

Definition panic {A : Type} (reason : string) : M A :=
  fun b => (Panicked reason, b).

End Provider.

Arguments BatchProvider K : clear implicits.
Arguments M K A : clear implicits.

Declare Scope go_scope.
Delimit Scope go_scope with go.
Notation "x <~ m ;; k" := (bind m (fun x => k))
  (at level 100, m at next level, right associativity) : go_scope.
Notation "m ;;; k" := (bind m (fun _ => k))
  (at level 100, right associativity) : go_scope.
Local Open Scope go_scope.

(** *** Serialization for [iptables-restore] *)

Definition nl : string := String (Ascii.ascii_of_nat 10) EmptyString.

Inductive result (A : Type) : Type :=
| Ok (a : A)
| Err (err : string).
Arguments Ok {A} a.
Arguments Err {A} err.

(** [fmt.Fprintf(buf, ...)] on a [bytes.Buffer]: the text is appended.  The
    error result is kept because the callers test it. *)
Definition Fprintf (buf text : string) : string * error := (buf +:+ text, None).

(** [for _, x := range xs { if err := body(x); err != nil { return nil, err } }] *)
Fixpoint for_each {A : Type} (xs : list A) (body : A -> string -> string * error)
    (buf : string) : string * error :=
  match xs with
  | [] => (buf, None)
  | x :: rest =>
      match body x buf with
      | (buf', None) => for_each rest body buf'
      | (buf', Some err) => (buf', Some err)
      end
  end.

Definition and_then (w1 w2 : string -> string * error) (buf : string) : string * error :=
  match w1 buf with
  | (buf', None) => w2 buf'
  | (buf', Some err) => (buf', Some err)
  end.

(** Go leaves the order of a [range] over a map open.  One visit of the outer
    loop of [createDataBuffer] is a table together with the orders in which
    the two inner loops go through the chains of that table. *)
Record table_visit : Type := mkVisit {
  tv_table : string;
  tv_declare : list string;
  tv_fill : list string;
}.

(** [keys] is an order in which [range m] can visit the map: every key once. *)
Definition range_order {A : Type} (m : gmap string A) (keys : list string) : Prop :=
  keys ≡ₚ (map_to_list m).*1.

Definition valid_order (r : gmap string (gmap string (list string)))
    (order : list table_visit) : Prop :=
  range_order r (tv_table <$> order) /\
  Forall (fun v => range_order (default ∅ (r !! tv_table v)) (tv_declare v) /\
                   range_order (default ∅ (r !! tv_table v)) (tv_fill v)) order.

(** [createDataBuffer] *)
Definition createDataBuffer (order : list table_visit)
    (r : gmap string (gmap string (list string))) : result string :=
  let body (v : table_visit) : string -> string * error :=
    let table := tv_table v in
    and_then (fun buf => Fprintf buf ("*" +:+ table +:+ nl))
    (and_then (for_each (tv_declare v)
                 (fun chain buf => Fprintf buf (":" +:+ chain +:+ " - [0:0]" +:+ nl)))
    (and_then (for_each (tv_fill v)
                 (fun chain =>
                    for_each (default [] (r !! table ≫= (.!! chain)))
                      (fun rule buf =>
                         Fprintf buf ("-A " +:+ chain +:+ " " +:+ rule +:+ nl))))
              (fun buf => Fprintf buf ("COMMIT" +:+ nl)))) in
  match for_each order body EmptyString with
  | (buf, None) => Ok buf
  | (_, Some err) => Err err
  end.

Section Methods.

Context {K : Type} `{BaseIPTables K}.

(** [_, ok := b.batchTables[table]] *)
Definition batched (table : string) : M K bool :=
  fun b => (Returned (bool_decide (is_Some (batchTables b !! table))), b).

(** [return b.ipt.X(...)]: one call of the passthrough method, whose error
    is the result. *)
Definition forward {A : Type} (op : K -> A * K) : M K A :=
  fun b => let '(a, k) := op (ipt b) in (Returned a, set_ipt k b).

(** [_, ok := b.rules[table]] *)
Definition has_table (table : string) : M K bool :=
  fun b => (Returned (bool_decide (is_Some (rules b !! table))), b).

(** [b.rules[table] = map[string][]string{}] *)
Definition make_table (table : string) : M K unit :=
  fun b => (Returned tt, set_rules (<[table := ∅]> (rules b)) b).

(** [_, ok := b.rules[table][chain]]; reading a missing table yields the
    nil map, in which no chain is found. *)
Definition has_chain (table chain : string) : M K bool :=
  fun b => (Returned (bool_decide (is_Some (rules b !! table ≫= (.!! chain)))), b).

(** [b.rules[table][chain]] as a value; a missing entry reads as the nil
    slice. *)
Definition chain_of (r : gmap string (gmap string (list string)))
    (table chain : string) : list string :=
  default [] (r !! table ≫= (.!! chain)).

Definition load_chain (table chain : string) : M K (list string) :=
  fun b => (Returned (chain_of (rules b) table chain), b).

(** [b.rules[table][chain] = l]; the inner map is shared, so the update is
    seen through [b.rules].  Assigning into the nil map of a missing table
    panics. *)
Definition store_chain (table chain : string) (l : list string) : M K unit :=
  fun b =>
    match rules b !! table with
    | Some chains =>
        (Returned tt, set_rules (<[table := <[chain := l]> chains]> (rules b)) b)
    | None => (Panicked "assignment to entry in nil map", b)
    end.

(** [delete(b.rules[table], chain)] *)
Definition delete_chain (table chain : string) : M K unit :=
  fun b =>
    match rules b !! table with
    | Some chains =>
        (Returned tt, set_rules (<[table := delete chain chains]> (rules b)) b)
    | None => (Returned tt, b)
    end.

Definition when (c : bool) (m : M K unit) : M K unit :=
  if c then m else ret tt.

Definition nil_error : error := None.

(** [Append] *)
Definition Append (table chain : string) (rulespec : list string) : M K error :=
  ok <~ batched table ;;
  if negb ok then forward (ipt_Append table chain rulespec) else
  ok <~ has_table table ;;
  when (negb ok) (make_table table) ;;;
  ok <~ has_chain table chain ;;
  when (negb ok) (store_chain table chain []) ;;;
  let rule := Go.Join rulespec " " in
  cur <~ load_chain table chain ;;
  store_chain table chain (cur ++ [rule]) ;;;
  ret nil_error.

(** The third branch of [Insert]:
    [append(.., "newvalue")], [copy(s[pos-1:], s[pos-2:])], [s[pos-1] = rule]. *)
Definition insert_shift (table chain : string) (pos : Z) (rule : string) : M K unit :=
  cur <~ load_chain table chain ;;
  store_chain table chain (cur ++ ["newvalue"]) ;;;
  s <~ load_chain table chain ;;
  match Go.slice_from s (Go.int_sub pos 1), Go.slice_from s (Go.int_sub pos 2) with
  | Some _, Some _ =>
      store_chain table chain
        (Go.copy_within s (Z.to_nat (Go.int_sub pos 1)) (Z.to_nat (Go.int_sub pos 2))) ;;;
      s <~ load_chain table chain ;;
      match Go.store_index s (Go.int_sub pos 1) rule with
      | Some s' => store_chain table chain s'
      | None => panic "index out of range"
      end
  | _, _ => panic "slice bounds out of range"
  end.

(** [Insert] *)
Definition Insert (table chain : string) (pos : Z) (rulespec : list string) : M K error :=
  ok <~ batched table ;;
  if negb ok then forward (ipt_Insert table chain pos rulespec) else
  ok <~ has_table table ;;
  when (negb ok) (make_table table) ;;;
  ok <~ has_chain table chain ;;
  when (negb ok) (store_chain table chain []) ;;;
  let rule := Go.Join rulespec " " in
  cur <~ load_chain table chain ;;
  (if pos =? 1 then
     store_chain table chain ([rule] ++ cur)
   else if Go.len cur <? pos then
     store_chain table chain (cur ++ [rule])
   else
     insert_shift table chain pos rule) ;;;
  ret nil_error.

(** [s[lo:hi]] as the three [switch] arms of [Delete] use it; the slices
    of this package are never re-sliced beyond their length. *)
Definition reslice (s : list string) (lo hi : Z) : M K (list string) :=
  match Go.slice s lo hi with
  | Some s' => ret s'
  | None => panic "slice bounds out of range"
  end.

(** The [switch index] of [Delete], run when [rule == r] at [index].  The
    index and the length are those of one slice, so [index+1] and [len-1]
    stay within [int] and are written without the wrap-around. *)
Definition delete_at (table chain : string) (index : Z) : M K unit :=
  s <~ load_chain table chain ;;
  if index =? 0 then
    if Go.len s =? 1 then
      store_chain table chain []
    else
      (s' <~ reslice s 1 (Go.len s) ;; store_chain table chain s')
  else if index =? Go.len s - 1 then
    (s' <~ reslice s 0 index ;; store_chain table chain s')
  else
    (front <~ reslice s 0 index ;;
     back <~ reslice s (index + 1) (Go.len s) ;;
     store_chain table chain (front ++ back)).

(** [for index, r := range b.rules[table][chain]]: the range expression is
    evaluated once, [rest] is what is left of it from [index] on. *)
Fixpoint delete_loop (table chain rule : string) (index : Z) (rest : list string)
    : M K unit :=
  match rest with
  | [] => ret tt
  | r :: rest' =>
      if String.eqb rule r then delete_at table chain index
      else delete_loop table chain rule (index + 1) rest'
  end.

(** [Delete] *)
Definition Delete (table chain : string) (rulespec : list string) : M K error :=
  ok <~ batched table ;;
  if negb ok then forward (ipt_Delete table chain rulespec) else
  ok <~ has_table table ;;
  if negb ok then ret nil_error else
  ok <~ has_chain table chain ;;
  if negb ok then ret nil_error else
  let rule := Go.Join rulespec " " in
  cur <~ load_chain table chain ;;
  delete_loop table chain rule 0 cur ;;;
  ret nil_error.

(** [ListChains] *)
Definition ListChains (table : string) : M K (list string * error) :=
  forward (ipt_ListChains table).

(** [ClearChain] *)
Definition ClearChain (table chain : string) : M K error :=
  ok <~ batched table ;;
  if negb ok then forward (ipt_ClearChain table chain) else
  ok <~ has_table table ;;
  if negb ok then ret nil_error else
  ok <~ has_chain table chain ;;
  if negb ok then ret nil_error else
  store_chain table chain [] ;;;
  ret nil_error.

(** [DeleteChain] *)
Definition DeleteChain (table chain : string) : M K error :=
  ok <~ batched table ;;
  if negb ok then forward (ipt_DeleteChain table chain) else
  ok <~ has_table table ;;
  if negb ok then ret nil_error else
  delete_chain table chain ;;;
  ret nil_error.

(** [NewChain] *)
Definition NewChain (table chain : string) : M K error :=
  ok <~ batched table ;;
  if negb ok then forward (ipt_NewChain table chain) else
  ok <~ has_table table ;;
  when (negb ok) (make_table table) ;;;
  store_chain table chain [] ;;;
  ret nil_error.

(** [RetrieveTable] *)
Definition RetrieveTable : M K (gmap string (gmap string (list string))) :=
  fun b => (Returned (rules b), b).

(** [Commit]; [order] is the order in which the [range] loops of
    [createDataBuffer] happen to visit the maps. *)
Definition Commit (order : list table_visit) : M K error :=
  fun b =>
    if decide (size (batchTables b) = 0%nat) then (Returned nil_error, b) else
    match createDataBuffer order (rules b) with
    | Err err => (Returned (Some ("Failed to crete buffer " +:+ err)), b)
    | Ok buf => (Returned (commitFunc b buf), b)
    end.

End Methods.

(** A passthrough that records the calls it receives, on top of any
    implementation [K]. *)
Record Recorder (K : Type) : Type := mkRecorder {
  inner : K;
  calls : list Call;
}.
Arguments mkRecorder {K} inner calls.
Arguments inner {K} r.
Arguments calls {K} r.

Definition recording {K A : Type} (c : Call) (op : K -> A * K) (k : Recorder K)
    : A * Recorder K :=
  let '(a, k') := op (inner k) in (a, mkRecorder k' (calls k ++ [c])).

#[export] Instance Recorder_ipt {K : Type} `{BaseIPTables K} : BaseIPTables (Recorder K) := {
  ipt_Append t c r := recording (CallAppend t c r) (ipt_Append t c r);
  ipt_Insert t c p r := recording (CallInsert t c p r) (ipt_Insert t c p r);
  ipt_Delete t c r := recording (CallDelete t c r) (ipt_Delete t c r);
  ipt_ListChains t := recording (CallListChains t) (ipt_ListChains t);
  ipt_ClearChain t c := recording (CallClearChain t c) (ipt_ClearChain t c);
  ipt_DeleteChain t c := recording (CallDeleteChain t c) (ipt_DeleteChain t c);
  ipt_NewChain t c := recording (CallNewChain t c) (ipt_NewChain t c);
}.

(** A passthrough without state that accepts every call, for concrete runs. *)
#[export] Instance unit_ipt : BaseIPTables unit := {
  ipt_Append _ _ _ k := (None, k);
  ipt_Insert _ _ _ _ k := (None, k);
  ipt_Delete _ _ _ k := (None, k);
  ipt_ListChains _ k := (([], None), k);
  ipt_ClearChain _ _ k := (None, k);
  ipt_DeleteChain _ _ k := (None, k);
  ipt_NewChain _ _ k := (None, k);
}.

(** *** The capability probe *)

(** The regular expression [v([0-9]+(\.[0-9]+)+)] of [restoreHasWait], as
    the automaton that reads the text after the [v]. *)
Inductive scan_state : Type :=
| AtNumber    (* the first digit of [[0-9]+] is due *)
| InNumber    (* inside [[0-9]+] *)
| AfterDot    (* a [\.] was read, the first digit of its group is due *)
| InGroup.    (* inside the digits of a group: a match can end here *)

Definition is_digit (c : Ascii.ascii) : bool :=
  match Ascii.is_nat c with Some _ => true | None => false end.

Definition is_dot (c : Ascii.ascii) : bool := Ascii.eqb c "."%char.

Definition step (q : scan_state) (c : Ascii.ascii) : option scan_state :=
  match q with
  | AtNumber => if is_digit c then Some InNumber else None
  | InNumber => if is_digit c then Some InNumber
                else if is_dot c then Some AfterDot else None
  | AfterDot => if is_digit c then Some InGroup else None
  | InGroup => if is_digit c then Some InGroup
               else if is_dot c then Some AfterDot else None
  end.

Definition accepting (q : scan_state) : bool :=
  match q with InGroup => true | _ => false end.

(** The text that the greedy quantifiers consume from [s] when the automaton
    is in [q]: as much as can still end in a match. *)
Fixpoint scan (q : scan_state) (s : string) : option string :=
  let stop := if accepting q then Some EmptyString else None in
  match s with
  | EmptyString => stop
  | String c rest =>
      match step q c with
      | Some q' =>
          match scan q' rest with
          | Some t => Some (String c t)
          | None => stop
          end
      | None => stop
      end
  end.

(** The text of the last repetition of the inner group. *)
Fixpoint last_group (t : string) : string :=
  match t with
  | EmptyString => EmptyString
  | String c rest =>
      match last_group rest with
      | EmptyString => if is_dot c then t else EmptyString
      | g => g
      end
  end.

(** [versionMatcher.FindStringSubmatch]: the leftmost match, as the whole
    match followed by the two groups; [None] is the nil slice. *)
Fixpoint FindStringSubmatch (s : string) : option (list string) :=
  match s with
  | EmptyString => None
  | String c rest =>
      if Ascii.eqb c "v"%char then
        match scan AtNumber rest with
        | Some t => Some [String c t; t; last_group t]
        | None => FindStringSubmatch rest
        end
      else FindStringSubmatch rest
  end.

(** Package [go-version], as far as [restoreHasWait] uses it. *)
Class VersionLib (V : Type) : Type := {
  NewVersion : string -> result V;
  Compare : V -> V -> Z;
}.

Definition LessThan {V : Type} `{VersionLib V} (v o : V) : bool := Compare v o <? 0.
Definition GreaterThanOrEqual {V : Type} `{VersionLib V} (v o : V) : bool :=
  0 <=? Compare v o.

Section Probe.

Context {V : Type} `{VersionLib V}.

(** [exec.Command(name, args...)] run with an empty standard input:
    what [CombinedOutput] returns. *)
Variable CombinedOutput : string -> list string -> string * error.

(** [restoreHasWait] *)
Definition restoreHasWait (restoreCmd : string) : bool :=
  match CombinedOutput restoreCmd ["--version"] with
  | (_, Some _) => false
  | (bytes, None) =>
      match FindStringSubmatch bytes with
      | None => false
      | Some match_ =>
          if Go.len match_ <? 2 then false else
          match NewVersion (default EmptyString (match_ !! 1%nat)) with
          | Err _ => false
          | Ok restoreVersion =>
              match NewVersion "1.6.2" with
              | Err _ => false
              | Ok minimumVersion => negb (LessThan restoreVersion minimumVersion)
              end
          end
      end
  end.

End Probe.

(** ** Package markedconn *)

Module markedconn.

Definition sockOptOriginalDst : Z := 80.

(** Constants of package [syscall] on linux ([SYS_GETSOCKOPT] is the amd64
    number). *)
Definition AF_INET : Z := 2.
Definition AF_INET6 : Z := 10.
Definition SOL_IP : Z := 0.
Definition SOL_IPV6 : Z := 41.
Definition SYS_GETSOCKOPT : Z := 55.

(** [net.IP] is a byte slice; [None] is the nil slice. *)
Definition IP : Type := option (list Go.byte).

Record sockaddr4 : Type := mkSockaddr4 {
  family4 : Z;
  data : vec Go.byte 14;
}.

Record sockaddr6 : Type := mkSockaddr6 {
  family6 : Z;
  port6 : vec Go.byte 2;
  flowInfo : vec Go.byte 4;
  ip6 : vec Go.byte 16;
  scopeID : vec Go.byte 4;
}.

(** [origDest]: the system call, given the trap number, the descriptor, the
    level and the option.  It answers with the content of the structure
    that the fifth argument points to, as it is after the call, and with
    the errno; the structure is a [sockaddr4] or a [sockaddr6] according
    to the caller. *)
Record origDest : Type := mkOrigDest {
  fill4 : Z -> Z -> Z -> Z -> sockaddr4 * Z;
  fill6 : Z -> Z -> Z -> Z -> sockaddr6 * Z;
}.

(** [passFD]: [Control] runs the function it is given on the descriptors
    [ctl_fds], in this order, and returns [ctl_err].  A raw connection of
    the [net] package runs it once or fails without running it. *)
Record passFD : Type := mkPassFD {
  ctl_fds : list Z;
  ctl_err : error;
}.

(** The variables that the two closures of [getOriginalDestInternal]
    capture. *)
Record locals : Type := mkLocals {
  netIP : IP;
  port : Z;
  err : error;
}.

Definition Control (rawConn : passFD) (f : Z -> locals -> locals) (vars : locals)
    : error * locals :=
  (ctl_err rawConn, fold_left (fun vars fd => f fd vars) (ctl_fds rawConn) vars).

(** What the functions of the Go runtime and of the [net] package that
    the code calls answer. *)
Class Runtime : Type := {
  Errno_Error : Z -> string;
  Syscall6 : origDest;
  SplitHostPort : string -> (string * string) * error;
  ParseIP : string -> IP;
  To4 : IP -> IP;
}.

(** [fmt.Errorf("...%s", err)] for an [error] operand. *)
Definition verb_s (e : error) : string := default "%!s(<nil>)" e.

Section Resolver.

Context `{Runtime}.

Definition getsockopt4 (getOrigDest : origDest) (fd : Z) (vars : locals) : locals :=
  let '(addr, e1) := fill4 getOrigDest SYS_GETSOCKOPT fd SOL_IP sockOptOriginalDst in
  if negb (e1 =? 0) then
    mkLocals (netIP vars) (port vars)
      (Some ("Failed to get original destination: " +:+ Errno_Error e1))
  else if negb (family4 addr =? AF_INET) then
    mkLocals (netIP vars) (port vars)
      (Some "invalid address family. Expected AF_INET")
  else
    mkLocals (Some (take 4 (drop 2 (vec_to_list (data addr)))))
      (Go.int_add (Go.int_shl (Go.int_of_byte (data addr !!! 0%fin)) 8)
                  (Go.int_of_byte (data addr !!! 1%fin)))
      (err vars).

Definition getsockopt6 (getOrigDest : origDest) (fd : Z) (vars : locals) : locals :=
  let '(addr, e1) := fill6 getOrigDest SYS_GETSOCKOPT fd SOL_IPV6 sockOptOriginalDst in
  if negb (e1 =? 0) then
    mkLocals (netIP vars) (port vars)
      (Some ("Failed to get original destination: " +:+ Errno_Error e1))
  else if negb (family6 addr =? AF_INET6) then
    mkLocals (netIP vars) (port vars)
      (Some "invalid address family. Expected AF_INET6")
  else
    mkLocals (Some (vec_to_list (ip6 addr)))
      (Go.int_add (Go.int_shl (Go.int_of_byte (port6 addr !!! 0%fin)) 8)
                  (Go.int_of_byte (port6 addr !!! 1%fin)))
      (err vars).

(** [getOriginalDestInternal] *)
Definition getOriginalDestInternal (rawConn : passFD) (v4Proto : bool)
    (getOrigDest : origDest) : IP * Z * error :=
  let vars := mkLocals None 0 None in
  let getsockopt := if v4Proto then getsockopt4 getOrigDest else getsockopt6 getOrigDest in
  let '(err1, vars) := Control rawConn getsockopt vars in
  match err1 with
  | Some _ =>
      (None, 0, Some ("Failed to get original destination: " +:+ verb_s (err vars)))
  | None =>
      match err vars with
      | Some e => (None, 0, Some e)
      | None => (netIP vars, port vars, None)
      end
  end.

(** A [net.TCPConn], by what its methods answer. *)
Record TCPConn : Type := mkTCPConn {
  conn_id : nat;
  SyscallConn : passFD * error;
  LocalAddr_String : string;
}.

(** [GetOriginalDestination] *)
Definition GetOriginalDestination (conn : TCPConn) : IP * Z * error :=
  match SyscallConn conn with
  | (_, Some e) => (None, 0, Some e)
  | (rawconn, None) =>
      match SplitHostPort (LocalAddr_String conn) with
      | (_, Some e) => (None, 0, Some e)
      | ((localIPString, _), None) =>
          let localIP := ParseIP localIPString in
          getOriginalDestInternal rawconn (bool_decide (To4 localIP ≠ None)) Syscall6
      end
  end.

(** The connections that are open in the process, by [conn_id]. *)
Definition sockets : Type := gset nat.

(** [Close] of [net.TCPConn] *)
Definition TCPConn_Close (c : TCPConn) (open : sockets) : error * sockets :=
  (None, open ∖ {[conn_id c]}).

(** The dynamic type of a [net.Conn]. *)
Inductive Conn : Type :=
| ConnTCP (c : TCPConn)
| ConnOther (id : nat).

Record ProxiedConnection : Type := mkProxiedConnection {
  originalIP : IP;
  originalPort : Z;
  originalTCPConnection : TCPConn;
}.

(** [Close] of [ProxiedConnection] *)
Definition Close (p : ProxiedConnection) (open : sockets) : error * sockets :=
  TCPConn_Close (originalTCPConnection p) open.

(** [ProxiedListener]; the listener it wraps is an interface value, given
    by what its [Accept] answers and does to the open connections. *)
Record ProxiedListener : Type := mkProxiedListener {
  netListener_Accept : sockets -> (option Conn * error) * sockets;
  mark : Z;
}.

(** [Accept] of [ProxiedListener] *)
Definition Accept (l : ProxiedListener) (open : sockets)
    : (option ProxiedConnection * error) * sockets :=
  let '((nc, err), open) := netListener_Accept l open in
  match err with
  | Some e => ((None, Some e), open)
  | None =>
      match nc with
      | Some (ConnTCP tcpConn) =>
          let '(ip, port, err) := GetOriginalDestination tcpConn in
          match err with
          | Some e => ((None, Some e), open)
          | None => ((Some (mkProxiedConnection ip port tcpConn), None), open)
          end
      | _ => ((None, Some "Not a tcp connection - ignoring"), open)
      end
  end.

End Resolver.

End markedconn.

(** ** Reference notions the code is compared with *)

(** [r] with the list of [chain] in [table] replaced by [l], the table and
    the chain being created when they are missing. *)
Definition put_chain (r : gmap string (gmap string (list string)))
    (table chain : string) (l : list string) : gmap string (gmap string (list string)) :=
  <[table := <[chain := l]> (default ∅ (r !! table))]> r.

(** The position rule of the data model, on lists: first for [pos = 1], last
    for a position beyond the length, else in front of the element at the
    1-based position [pos]. *)
Definition insert_at (pos : Z) (rule : string) (l : list string) : list string :=
  if pos =? 1 then rule :: l
  else if Go.len l <? pos then l ++ [rule]
  else take (Z.to_nat (pos - 1)) l ++ rule :: drop (Z.to_nat (pos - 1)) l.

(** Removal of the first element equal to [rule], on lists. *)
Fixpoint remove_first (rule : string) (l : list string) : list string :=
  match l with
  | [] => []
  | r :: rest => if String.eqb rule r then rest else r :: remove_first rule rest
  end.

(** The texts that [v([0-9]+(\.[0-9]+)+)] denotes, read off the
    expression.  [number s rest]: [s] is one or more digits followed by
    [rest]. *)
Inductive number : string -> string -> Prop :=
| number_one c rest : is_digit c = true -> number (String c rest) rest
| number_more c s rest : is_digit c = true -> number s rest -> number (String c s) rest.

(** [groups s rest]: [s] is one or more groups, each a dot and a number,
    followed by [rest]. *)
Inductive groups : string -> string -> Prop :=
| groups_one s rest : number s rest -> groups (String "."%char s) rest
| groups_more s mid rest :
    number s mid -> groups mid rest -> groups (String "."%char s) rest.

(** [version_prefix s rest]: [s] is a number and one or more groups, followed
    by [rest]; [version_text t]: [t] is a number and one or more groups. *)
Definition version_prefix (s rest : string) : Prop :=
  exists mid, number s mid /\ groups mid rest.

Definition version_text (t : string) : Prop := version_prefix t EmptyString.

(** [has_version_token out]: somewhere in [out] a [v] is followed by such a
    text. *)
Inductive has_version_token : string -> Prop :=
| token_here s rest : version_prefix s rest -> has_version_token (String "v"%char s)
| token_later c s : has_version_token s -> has_version_token (String c s).

(** What [scan] has read when it stops with a match, by the state it
    started in: the rest of a number or none of it, the rest of the groups
    or none of them. *)
Definition more_digits (s mid : string) : Prop := mid = s \/ number s mid.
Definition more_groups (mid rest : string) : Prop := rest = mid \/ groups mid rest.

Definition scanned (q : scan_state) (s rest : string) : Prop :=
  match q with
  | AtNumber => exists mid, number s mid /\ groups mid rest
  | InNumber => exists mid, more_digits s mid /\ groups mid rest
  | AfterDot => exists mid, number s mid /\ more_groups mid rest
  | InGroup => exists mid, more_digits s mid /\ more_groups mid rest
  end.

(** What the kernel answers to the query that the resolver makes for a
    descriptor: the address-family tag of the structure and the errno. *)
Definition kernel_answer `{markedconn.Runtime} (v4Proto : bool) (fd : Z) : Z * Z :=
  if v4Proto then
    let '(addr, e1) :=
      markedconn.fill4 markedconn.Syscall6 markedconn.SYS_GETSOCKOPT fd
        markedconn.SOL_IP markedconn.sockOptOriginalDst in
    (markedconn.family4 addr, e1)
  else
    let '(addr, e1) :=
      markedconn.fill6 markedconn.Syscall6 markedconn.SYS_GETSOCKOPT fd
        markedconn.SOL_IPV6 markedconn.sockOptOriginalDst in
    (markedconn.family6 addr, e1).

Definition expected_family (v4Proto : bool) : Z :=
  if v4Proto then markedconn.AF_INET else markedconn.AF_INET6.

(** The ways in which the recovery of the original destination of an
    accepted connection fails: the raw handle is not obtained, [Control]
    reports an error, the kernel query fails, or the answer carries the
    wrong family. *)
Inductive recovery_failure `{markedconn.Runtime} (c : markedconn.TCPConn) : Prop :=
| handle_failure (e : string) :
    (markedconn.SyscallConn c).2 = Some e -> recovery_failure c
| control_failure (fds : list Z) (e host port : string) :
    markedconn.SyscallConn c = (markedconn.mkPassFD fds (Some e), None) ->
    markedconn.SplitHostPort (markedconn.LocalAddr_String c) = ((host, port), None) ->
    recovery_failure c
| query_failure (fd : Z) (host port : string) :
    markedconn.SyscallConn c = (markedconn.mkPassFD [fd] None, None) ->
    markedconn.SplitHostPort (markedconn.LocalAddr_String c) = ((host, port), None) ->
    let v4Proto := bool_decide (markedconn.To4 (markedconn.ParseIP host) <> None) in
    (kernel_answer v4Proto fd).2 <> 0 \/
    (kernel_answer v4Proto fd).1 <> expected_family v4Proto ->
    recovery_failure c.

(** The reading of "a failed recovery closes the connection": after [Accept]
    the connection is no longer among the open ones. *)
Definition rejects_and_closes `{markedconn.Runtime} (l : markedconn.ProxiedListener)
    (open : markedconn.sockets) (c : markedconn.TCPConn) : Prop :=
  exists e, (markedconn.Accept l open).1 = (None, Some e) /\
            markedconn.conn_id c ∉ (markedconn.Accept l open).2.

(** ** Instances for concrete runs *)

(** Versions written as decimal numbers separated by dots, each number an
    [int64], compared number by number with missing numbers read as zero:
    the part of [go-version] that the texts of [version_text] reach. *)
Module dotted.

Fixpoint parse_segments (s : string) (cur : option Z) : option (list Z) :=
  match s with
  | EmptyString => match cur with Some n => Some [n] | None => None end
  | String c rest =>
      match Ascii.is_nat c with
      | Some d => parse_segments rest (Some (10 * default 0 cur + Z.of_nat d))
      | None =>
          if is_dot c then
            match cur, parse_segments rest None with
            | Some n, Some l => Some (n :: l)
            | _, _ => None
            end
          else None
      end
  end.

Definition NewVersion (s : string) : result (list Z) :=
  match parse_segments s None with
  | Some l =>
      if forallb (fun n => n <=? Go.int_max) l then Ok l
      else Err ("Error parsing version: " +:+ s)
  | None => Err ("Malformed version: " +:+ s)
  end.

Fixpoint Compare (a b : list Z) : Z :=
  match a, b with
  | [], [] => 0
  | _ :: _, [] => if forallb (fun n => n =? 0) a then 0 else 1
  | [], _ :: _ => if forallb (fun n => n =? 0) b then 0 else -1
  | x :: a', y :: b' =>
      if x <? y then -1 else if y <? x then 1 else Compare a' b'
  end.

#[export] Instance lib : VersionLib (list Z) := {
  NewVersion := NewVersion;
  Compare := Compare;
}.

End dotted.

(** A runtime for concrete runs: one local address is known to it, and the
    kernel answers every query with the same destination. *)
Module sample.

Import markedconn.

(** Port 8080 at 10.1.2.3, and port 443 at 2001:db8::1. *)
Definition reply4 : sockaddr4 :=
  mkSockaddr4 AF_INET
    [# Byte.x1f; Byte.x90; Byte.x0a; Byte.x01; Byte.x02; Byte.x03;
       Byte.x00; Byte.x00; Byte.x00; Byte.x00; Byte.x00; Byte.x00; Byte.x00; Byte.x00].

Definition reply6 : sockaddr6 :=
  mkSockaddr6 AF_INET6 [# Byte.x01; Byte.xbb]
    [# Byte.x00; Byte.x00; Byte.x00; Byte.x00]
    [# Byte.x20; Byte.x01; Byte.x0d; Byte.xb8; Byte.x00; Byte.x00; Byte.x00; Byte.x00;
       Byte.x00; Byte.x00; Byte.x00; Byte.x00; Byte.x00; Byte.x00; Byte.x00; Byte.x01]
    [# Byte.x00; Byte.x00; Byte.x00; Byte.x00].

Definition kernel : origDest :=
  mkOrigDest (fun _ _ _ _ => (reply4, 0)) (fun _ _ _ _ => (reply6, 0)).

(** A kernel that answers an IPv4 query with the tag of IPv6 and the
    reverse. *)
Definition confused_kernel : origDest :=
  mkOrigDest (fun _ _ _ _ => (mkSockaddr4 AF_INET6 (data reply4), 0))
             (fun _ _ _ _ => (mkSockaddr6 AF_INET (port6 reply6) (flowInfo reply6)
                                (ip6 reply6) (scopeID reply6), 0)).

Definition local_host : list Go.byte := [Byte.xc0; Byte.xa8; Byte.x00; Byte.x05].

#[export] Instance runtime : Runtime := {
  Errno_Error e := if e =? 92 then "protocol not available" else "errno";
  Syscall6 := kernel;
  SplitHostPort s :=
    if String.eqb s "192.168.0.5:4000" then (("192.168.0.5", "4000"), None)
    else ((EmptyString, EmptyString),
          Some ("address " +:+ s +:+ ": missing port in address"));
  ParseIP s := if String.eqb s "192.168.0.5" then Some local_host else None;
  To4 ip := match ip with
            | Some l => if decide (length l = 4%nat) then Some l else None
            | None => None
            end;
}.

(** A connection whose raw handle cannot be obtained, and a listener that
    accepts it. *)
Definition stale_conn : TCPConn :=
  mkTCPConn 7 (mkPassFD [] None, Some "use of closed network connection")
    "192.168.0.5:4000".

Definition stale_listener : ProxiedListener :=
  mkProxiedListener
    (fun open => ((Some (ConnTCP stale_conn), None), {[7%nat]} ∪ open)) 100.

(** A redirected connection to the local address on descriptor 12, and a
    listener that accepts it. *)
Definition redirected_conn : TCPConn :=
  mkTCPConn 8 (mkPassFD [12] None, None) "192.168.0.5:4000".

Definition redirected_listener : ProxiedListener :=
  mkProxiedListener
    (fun open => ((Some (ConnTCP redirected_conn), None), {[8%nat]} ∪ open)) 100.

End sample.

(** Providers for concrete runs: one with the batched chain [a; b; c], one
    whose passthrough records its calls and for which [filter] is a direct
    table, and one that holds the store of the serialization example. *)
Definition abc_provider : BatchProvider unit :=
  mkBatchProvider tt {["filter" := {["INPUT" := ["a"; "b"; "c"]]}]} {["filter" := true]}
    (fun _ => None) "iptables-restore".

Definition direct_provider : BatchProvider (Recorder unit) :=
  mkBatchProvider (mkRecorder tt []) {["nat" := {["PREROUTING" := ["-p tcp"]]}]}
    {["nat" := true]} (fun _ => None) "iptables-restore".

(** The store [nat] / [PREROUTING] and the text it is serialized to. *)
Definition nat_store : gmap string (gmap string (list string)) :=
  {["nat" := {["PREROUTING" := ["-j DNAT"; "-p tcp"]]}]}.

Definition nat_buffer : string :=
  "*nat" +:+ nl +:+
  ":PREROUTING - [0:0]" +:+ nl +:+
  "-A PREROUTING -j DNAT" +:+ nl +:+
  "-A PREROUTING -p tcp" +:+ nl +:+
  "COMMIT" +:+ nl.

Definition nat_provider : BatchProvider unit :=
  mkBatchProvider tt nat_store {["nat" := true]} (fun buf => Some buf) "iptables-restore".

(** A run of [iptables-restore --version]. *)
Definition legacy_output (name : string) (args : list string) : string * error :=
  ("iptables-restore v1.8.4 (legacy)", None).

(** ** The rest of package provider *)

Definition restoreCmdV4 : string := "iptables-restore".
Definition restoreCmdV6 : string := "ip6tables-restore".

(** [for _, t := range batchTables { batchTablesMap[t] = true }] *)
Fixpoint mark_tables (batchTables : list string) (batchTablesMap : gmap string bool)
    : gmap string bool :=
  match batchTables with
  | [] => batchTablesMap
  | t :: rest => mark_tables rest (<[t := true]> batchTablesMap)
  end.

(** [NewCustomBatchProvider]; the command of the provider is left at its
    zero value. *)
Definition NewCustomBatchProvider {K : Type} (ipt : K) (commit : string -> error)
    (batchTables : list string) : BatchProvider K :=
  mkBatchProvider ipt ∅ (mark_tables batchTables ∅) commit EmptyString.

(** [exec.Command(name, args...)] with the given standard input: what
    [CombinedOutput] returns, the output and the error. *)
Definition Exec : Type := string -> list string -> string -> string * error.

(** [restore], the commit function of the providers of go-iptables.  On a
    failure it also serializes the store once more and writes a log entry;
    the logger is not modelled, and the serialization has no effect. *)
Definition restore (run : Exec) (restoreCmd : string) (buf : string) : error :=
  match run restoreCmd ["--wait"] buf with
  | (_, Some err) => Some ("Failed to execute iptables-restore: " +:+ err)
  | (_, None) => None
  end.

Section Constructors.

Context {K V : Type} `{VersionLib V}.

(** What [exec] runs, and what [iptables.New] and
    [iptables.NewWithProtocol(iptables.ProtocolIPv6)] return. *)
Variable run : Exec.
Variable iptables_New : result K.
Variable iptables_NewWithProtocol_IPv6 : result K.

(** The probe runs its command with an empty standard input. *)
Definition probe (restoreCmd : string) : bool :=
  restoreHasWait (fun name args => run name args EmptyString) restoreCmd.

(** [NewGoIPTablesProviderV4] *)
Definition NewGoIPTablesProviderV4 (batchTables : list string) : result (BatchProvider K) :=
  match iptables_New with
  | Err err => Err err
  | Ok ipt =>
      let batchTablesMap :=
        if probe restoreCmdV4 then mark_tables batchTables ∅ else ∅ in
      Ok (mkBatchProvider ipt ∅ batchTablesMap (restore run restoreCmdV4) restoreCmdV4)
  end.

(** [NewGoIPTablesProviderV6] *)
Definition NewGoIPTablesProviderV6 (batchTables : list string) : result (BatchProvider K) :=
  match iptables_NewWithProtocol_IPv6 with
  | Err err => Err err
  | Ok ipt =>
      let batchTablesMap :=
        if probe restoreCmdV6 then mark_tables batchTables ∅ else ∅ in
      Ok (mkBatchProvider ipt ∅ batchTablesMap (restore run restoreCmdV6) restoreCmdV6)
  end.

End Constructors.

(** A call of a method of the provider, as a value, to speak about sequences
    of calls. *)
Inductive method : Type :=
| DoAppend (table chain : string) (rulespec : list string)
| DoInsert (table chain : string) (pos : Z) (rulespec : list string)
| DoDelete (table chain : string) (rulespec : list string)
| DoListChains (table : string)
| DoClearChain (table chain : string)
| DoDeleteChain (table chain : string)
| DoNewChain (table chain : string)
| DoCommit (order : list table_visit)
| DoRetrieveTable.

(** The provider after the call, whether the call returned or panicked. *)
Definition after {K : Type} `{BaseIPTables K} (m : method) (b : BatchProvider K)
    : BatchProvider K :=
  match m with
  | DoAppend table chain rulespec => (Append table chain rulespec b).2
  | DoInsert table chain pos rulespec => (Insert table chain pos rulespec b).2
  | DoDelete table chain rulespec => (Delete table chain rulespec b).2
  | DoListChains table => (ListChains table b).2
  | DoClearChain table chain => (ClearChain table chain b).2
  | DoDeleteChain table chain => (DeleteChain table chain b).2
  | DoNewChain table chain => (NewChain table chain b).2
  | DoCommit order => (Commit order b).2
  | DoRetrieveTable => (RetrieveTable b).2
  end.

Definition after_all {K : Type} `{BaseIPTables K} (ms : list method) (b : BatchProvider K)
    : BatchProvider K :=
  fold_left (fun b m => after m b) ms b.

(** A property of the provider that a computation keeps. *)
Definition keeps {K A : Type} (P : BatchProvider K -> Prop) (m : M K A) : Prop :=
  forall b, P b -> P (m b).2.

(** The provider has the tables [bt] batched, the commit function [cf] and
    the command [rc], and caches batched tables only. *)
Definition configured {K : Type} (bt : gmap string bool) (cf : string -> error)
    (rc : string) (b : BatchProvider K) : Prop :=
  batchTables b = bt /\ commitFunc b = cf /\ restoreCmd b = rc /\
  forall t, is_Some (rules b !! t) -> is_Some (bt !! t).

(** The lines of a stanza of the buffer. *)
Definition declare_line (chain : string) : string := ":" +:+ chain +:+ " - [0:0]" +:+ nl.
Definition rule_line (chain rule : string) : string :=
  "-A " +:+ chain +:+ " " +:+ rule +:+ nl.

Fixpoint join_lines (lines : list string) : string :=
  match lines with
  | [] => EmptyString
  | line :: rest => line +:+ join_lines rest
  end.

(** The lines of the rules of the chains, chain after chain in the order in
    which the second inner loop visits them. *)
Definition fill_lines (r : gmap string (gmap string (list string))) (table : string)
    (fill : list string) : list string :=
  fill ≫= (fun chain => rule_line chain <$> default [] (r !! table ≫= (.!! chain))).

(** The stanza that one visit of the outer loop writes. *)
Definition stanza (r : gmap string (gmap string (list string))) (v : table_visit) : string :=
  "*" +:+ tv_table v +:+ nl +:+
  join_lines (declare_line <$> tv_declare v) +:+
  join_lines (fill_lines r (tv_table v) (tv_fill v)) +:+
  "COMMIT" +:+ nl.

(** Where a match of the version pattern ends: at the end of the text, or in
    front of a character that is neither a digit nor a dot that a digit
    follows. *)
Definition stops_at (rest : string) : Prop :=
  match rest with
  | EmptyString => True
  | String c rest' =>
      is_digit c = false /\
      (is_dot c = true ->
       match rest' with
       | EmptyString => True
       | String d _ => is_digit d = false
       end)
  end.

(** ** The rest of package markedconn *)

Module markedsocket.

Import markedconn.

(** Constants of package [syscall] on linux. *)
Definition SOL_SOCKET : Z := 1.
Definition SO_MARK : Z := 36.
Definition SOL_TCP : Z := 6.

(** [net.TCPAddr] *)
Record TCPAddr : Type := mkTCPAddr {
  addr_IP : IP;
  addr_Port : Z;
}.

(** The methods [GetOriginalDestination], [GetTCPConnection] and [LocalAddr]
    of [ProxiedConnection]. *)
Definition ProxiedConnection_GetOriginalDestination (p : ProxiedConnection) : IP * Z :=
  (originalIP p, originalPort p).

Definition GetTCPConnection (p : ProxiedConnection) : TCPConn :=
  originalTCPConnection p.

Definition LocalAddr (p : ProxiedConnection) : TCPAddr :=
  mkTCPAddr (originalIP p) (originalPort p).

(** The entries that the functions write to the logger. *)
Inductive log_level : Type := ErrorLevel | DebugLevel.

Record log_entry : Type := mkLog {
  entry_level : log_level;
  entry_msg : string;
  entry_err : string;
}.

(** [if err := ...; err != nil { zap.L().X(msg, zap.Error(err)) }] *)
Definition logged (lvl : log_level) (msg : string) (e : error) (log : list log_entry)
    : list log_entry :=
  match e with
  | Some err => log ++ [mkLog lvl msg err]
  | None => log
  end.

(** The two functions of package [syscall] that set options, on a state [S]
    of the descriptors. *)
Class Syscalls (S : Type) : Type := {
  SetNonblock : Z -> bool -> S -> error * S;
  SetsockoptInt : Z -> Z -> Z -> Z -> S -> error * S;
}.

Inductive syscall : Type :=
| SysSetNonblock (fd : Z) (nonblocking : bool)
| SysSetsockoptInt (fd level opt value : Z).

(** Descriptors that record the calls made on them, on top of any [S]. *)
Record Traced (S : Type) : Type := mkTraced {
  traced : S;
  trace : list syscall;
}.
Arguments mkTraced {S} traced trace.
Arguments traced {S} t.
Arguments trace {S} t.

#[export] Instance Traced_syscalls {S : Type} `{Syscalls S} : Syscalls (Traced S) := {
  SetNonblock fd nonblocking t :=
    let '(e, s) := SetNonblock fd nonblocking (traced t) in
    (e, mkTraced s (trace t ++ [SysSetNonblock fd nonblocking]));
  SetsockoptInt fd level opt value t :=
    let '(e, s) := SetsockoptInt fd level opt value (traced t) in
    (e, mkTraced s (trace t ++ [SysSetsockoptInt fd level opt value]));
}.

(** [Control] of a raw connection, for a function that works on a state of
    any type. *)
Definition raw_Control {St : Type} (c : passFD) (f : Z -> St -> St) (st : St) : error * St :=
  (ctl_err c, fold_left (fun st fd => f fd st) (ctl_fds c) st).

Section Hooks.

Context {S : Type} `{Syscalls S}.

(** The function that [DialMarkedWithContext] hands to [Control]. *)
Definition dial_options (mark : Z) (fd : Z) (st : S * list log_entry)
    : S * list log_entry :=
  let '(s, log) := st in
  let '(e, s) := SetNonblock fd false s in
  let log := logged ErrorLevel "unable to set socket options" e log in
  let '(e, s) := SetsockoptInt fd SOL_SOCKET SO_MARK mark s in
  let log := logged ErrorLevel "Failed to assing mark to socket" e log in
  let '(e, s) := SetsockoptInt fd SOL_TCP 30 1 s in
  let log := logged DebugLevel "Failed to set fast open socket option" e log in
  (s, log).

(** The [Control] field of the dialer of [DialMarkedWithContext]. *)
Definition dial_Control (mark : Z) (network address : string) (c : passFD)
    (st : S * list log_entry) : error * (S * list log_entry) :=
  raw_Control c (dial_options mark) st.

(** The function that [NewSocketListener] hands to [Control]. *)
Definition listen_options (mark : Z) (fd : Z) (st : S * list log_entry)
    : S * list log_entry :=
  let '(s, log) := st in
  let '(e, s) := SetsockoptInt fd SOL_SOCKET SO_MARK mark s in
  let log := logged ErrorLevel "Failed to mark connection" e log in
  let '(e, s) := SetsockoptInt fd SOL_TCP 23 (16 * 1024) s in
  let log := logged ErrorLevel "Cannot set tcp fast open options" e log in
  (s, log).

(** The [Control] field of the listen configuration of [NewSocketListener]. *)
Definition listen_Control (mark : Z) (network address : string) (c : passFD)
    (st : S * list log_entry) : error * (S * list log_entry) :=
  raw_Control c (listen_options mark) st.

(** What [listenerCfg.Listen] answers, given the control function, the
    network and the port: a listener, by its [Accept], or an error. *)
Variable Listen :
  (string -> string -> passFD -> S * list log_entry -> error * (S * list log_entry)) ->
  string -> string -> S * list log_entry ->
  result (sockets -> (option Conn * error) * sockets) * (S * list log_entry).

(** [NewSocketListener] *)
Definition NewSocketListener (port : string) (mark : Z) (st : S * list log_entry)
    : result ProxiedListener * (S * list log_entry) :=
  let '(listener, st) := Listen (listen_Control mark) "tcp" port st in
  match listener with
  | Err err => (Err ("Failed to create listener: " +:+ err), st)
  | Ok accept => (Ok (mkProxiedListener accept mark), st)
  end.

End Hooks.

(** An interface of the host as [netinterfaces.GetInterfacesInfo] reports
    it; of its fields the code reads [IPs]. *)
Record NetworkInterface : Type := mkNetworkInterface {
  Name : string;
  IPs : list (list Go.byte);
}.

(** [GetInterfaces], given what [netinterfaces.GetInterfacesInfo] returns and
    the text that [String] gives for an address.  The error is logged at
    debug level and the interfaces that came with it are used. *)
Definition GetInterfaces (info : list NetworkInterface * error)
    (IP_String : list Go.byte -> string) (log : list log_entry)
    : gset string * list log_entry :=
  let '(ifaces, err) := info in
  let log := logged DebugLevel "Unable to get interfaces info" err log in
  (fold_left
     (fun ipmap iface =>
        fold_left (fun ipmap ip => {[IP_String ip]} ∪ ipmap) (IPs iface) ipmap)
     ifaces ∅,
   log).

End markedsocket.

(** Descriptors on which every option can be set, and ones on which no
    option can be set, for concrete runs. *)
Definition willing_syscalls : markedsocket.Syscalls unit :=
  {| markedsocket.SetNonblock _ _ s := (None, s);
     markedsocket.SetsockoptInt _ _ _ _ s := (None, s) |}.

Definition unwilling_syscalls : markedsocket.Syscalls unit :=
  {| markedsocket.SetNonblock _ _ s := (Some "operation not permitted", s);
     markedsocket.SetsockoptInt _ _ _ _ s := (Some "operation not permitted", s) |}.

(** A [Listen] that gives the listener of the redirected connection. *)
Definition sample_Listen
    (control : string -> string -> markedconn.passFD ->
               unit * list markedsocket.log_entry ->
               error * (unit * list markedsocket.log_entry))
    (network address : string) (st : unit * list markedsocket.log_entry)
    : result (markedconn.sockets ->
              (option markedconn.Conn * error) * markedconn.sockets)
      * (unit * list markedsocket.log_entry) :=
  (Ok (markedconn.netListener_Accept sample.redirected_listener), st).

(** A provider without batched tables whose commit function would fail. *)
Definition refusing_provider : BatchProvider unit :=
  mkBatchProvider tt ∅ ∅ (fun _ => Some "exit status 2") "iptables-restore".

(** An [exec] on a host without the restore commands, and one on a host
    with a recent iptables whose restore command accepts every buffer. *)
Definition no_restore_command : Exec :=
  fun _ _ _ => (EmptyString, Some "executable file not found in $PATH").

Definition recent_iptables : Exec :=
  fun name args _ =>
    if decide (args = ["--version"]) then (name +:+ " v1.8.4 (legacy)", None)
    else (EmptyString, None).

(** ** Facts about the Go primitives *)

Lemma wrap_id (z : Z) : Go.is_int z -> Go.wrap z = z.
Proof.
  unfold Go.is_int, Go.int_min, Go.int_max, Go.wrap. intros Hz.
  rewrite Z.mod_small; lia.
Qed.

Lemma wrap_below (z : Z) : Go.int_min - 2 ^ 63 <= z < Go.int_min -> Go.wrap z = z + 2 ^ 64.
Proof.
  unfold Go.int_min, Go.wrap. intros Hz.
  replace (z + 2 ^ 63) with ((z + 2 ^ 64 + 2 ^ 63) + (-1) * 2 ^ 64) by lia.
  rewrite Z.mod_add by lia. rewrite Z.mod_small; lia.
Qed.

(** The placeholder-append, [copy] and store of [Insert] amount to an
    insertion in front of index [d]. *)
Lemma shift_is_insertion (cur : list string) (d : nat) (filler rule : string) :
  (1 <= d <= length cur)%nat ->
  <[d := rule]> (Go.copy_within (cur ++ [filler]) d (d - 1)) =
  take d cur ++ rule :: drop d cur.
Proof.
  intros Hd. unfold Go.copy_within.
  rewrite length_app. simpl.
  replace (Nat.min (length cur + 1 - d) (length cur + 1 - (d - 1)))%nat
    with (length cur + 1 - d)%nat by lia.
  replace (d + (length cur + 1 - d))%nat with (length (cur ++ [filler])).
  2:{ rewrite length_app. simpl. lia. }
  rewrite drop_all, app_nil_r.
  rewrite take_app_le by lia.
  rewrite drop_app_le by lia.
  rewrite take_app_le by (rewrite length_drop; lia).
  rewrite (take_ge (drop (d - 1) cur)) by (rewrite length_drop; lia).
  destruct (drop (d - 1) cur) as [|a back] eqn:Hback.
  { apply (f_equal length) in Hback. rewrite length_drop in Hback. simpl in Hback. lia. }
  assert (Hd' : drop d cur = back).
  { replace d with ((d - 1) + 1)%nat at 1 by lia.
    rewrite <- drop_drop, Hback. reflexivity. }
  rewrite Hd'.
  rewrite insert_app_r_alt by (rewrite length_take; lia).
  rewrite length_take. replace (d - d `min` length cur)%nat with 0%nat by lia.
  reflexivity.
Qed.

(** ** Facts about the cached store *)

Lemma remove_first_absent (rule : string) (l : list string) :
  rule ∉ l -> remove_first rule l = l.
Proof.
  induction l as [|r rest IH]; [done|]. intros Hnotin. simpl.
  apply not_elem_of_cons in Hnotin as [Hne Hrest].
  destruct (String.eqb_spec rule r) as [->|_]; [done|]. by rewrite IH.
Qed.

Lemma remove_first_split (rule : string) (front back : list string) :
  rule ∉ front -> remove_first rule (front ++ rule :: back) = front ++ back.
Proof.
  induction front as [|r rest IH]; intros Hnotin; simpl.
  - by rewrite String.eqb_refl.
  - apply not_elem_of_cons in Hnotin as [Hne Hrest].
    destruct (String.eqb_spec rule r) as [->|_]; [done|]. by rewrite IH.
Qed.

Section StoreFacts.

Context {K : Type} `{BaseIPTables K}.
Implicit Types (b : BatchProvider K) (table chain rule : string).
Implicit Types (r : gmap string (gmap string (list string))) (l cur : list string).

Lemma chain_of_put r table chain l : chain_of (put_chain r table chain l) table chain = l.
Proof. unfold chain_of, put_chain. rewrite lookup_insert_eq. simpl. by rewrite lookup_insert_eq. Qed.

Lemma chain_of_put_other r table chain l table' chain' :
  (table', chain') ≠ (table, chain) ->
  chain_of (put_chain r table chain l) table' chain' = chain_of r table' chain'.
Proof.
  intros Hne. unfold chain_of, put_chain.
  destruct (decide (table = table')) as [<-|Ht].
  - rewrite lookup_insert_eq. simpl.
    rewrite lookup_insert_ne by congruence.
    destruct (r !! table); simpl; [done | by rewrite lookup_empty].
  - by rewrite lookup_insert_ne.
Qed.

Lemma put_put r table chain l l' :
  put_chain (put_chain r table chain l) table chain l' = put_chain r table chain l'.
Proof.
  unfold put_chain. rewrite lookup_insert_eq. simpl.
  by rewrite insert_insert_eq, insert_insert_eq.
Qed.

Lemma put_same r table chain chains l :
  r !! table = Some chains -> chains !! chain = Some l -> put_chain r table chain l = r.
Proof.
  intros Ht Hc. unfold put_chain. rewrite Ht. simpl.
  rewrite (insert_id chains) by done. by apply insert_id.
Qed.

Lemma set_rules_twice r r' b : set_rules r' (set_rules r b) = set_rules r' b.
Proof. reflexivity. Qed.

Lemma set_rules_same b : set_rules (rules b) b = b.
Proof. by destruct b. Qed.

(** A store into a chain that [put_chain] made. *)
Lemma store_chain_put r table chain l0 l b :
  store_chain table chain l (set_rules (put_chain r table chain l0) b) =
  (Returned tt, set_rules (put_chain r table chain l) b).
Proof.
  unfold store_chain. simpl. unfold put_chain at 1. rewrite lookup_insert_eq.
  rewrite set_rules_twice. f_equal. f_equal.
  unfold put_chain. by rewrite insert_insert_eq, insert_insert_eq.
Qed.

(** The lazy creation of the table and of the chain, which [Append] and
    [Insert] start with, followed by the read of the chain. *)
Lemma ensure_chain_run {A : Type} table chain (k : list string -> M K A) b :
  (ok <~ has_table table ;;
   when (negb ok) (make_table table) ;;;
   ok <~ has_chain table chain ;;
   when (negb ok) (store_chain table chain []) ;;;
   cur <~ load_chain table chain ;;
   k cur) b =
  k (chain_of (rules b) table chain)
    (set_rules (put_chain (rules b) table chain (chain_of (rules b) table chain)) b).
Proof.
  unfold bind, has_table, has_chain, when, make_table, store_chain, load_chain, ret.
  unfold chain_of, put_chain.
  destruct (rules b !! table) as [chains|] eqn:Ht; simpl.
  - rewrite Ht. simpl.
    destruct (chains !! chain) as [l|] eqn:Hc; simpl.
    + rewrite Ht. simpl. rewrite Hc. simpl.
      rewrite (insert_id chains) by done. rewrite insert_id by done.
      by rewrite set_rules_same.
    + rewrite Ht. simpl. rewrite lookup_insert_eq. simpl. by rewrite lookup_insert_eq.
  - rewrite lookup_insert_eq. simpl. rewrite lookup_empty. simpl.
    rewrite lookup_insert_eq. simpl. rewrite lookup_insert_eq. simpl.
    rewrite lookup_insert_eq. simpl. by rewrite insert_insert_eq.
Qed.

Lemma batched_true table b :
  is_Some (batchTables b !! table) -> batched table b = (Returned true, b).
Proof. intros Hb. unfold batched. by rewrite bool_decide_eq_true_2. Qed.

Lemma batched_false table b :
  batchTables b !! table = None -> batched table b = (Returned false, b).
Proof.
  intros Hb. unfold batched. rewrite bool_decide_eq_false_2; [done|].
  rewrite Hb. by intros [? ?].
Qed.

(** The third branch of [Insert] for a position inside the list. *)
Lemma insert_shift_inside r table chain pos rule cur b :
  Go.is_int pos -> 2 <= pos <= Go.len cur ->
  insert_shift table chain pos rule (set_rules (put_chain r table chain cur) b) =
  (Returned tt,
   set_rules (put_chain r table chain
                (take (Z.to_nat (pos - 1)) cur ++ rule :: drop (Z.to_nat (pos - 1)) cur)) b).
Proof.
  intros Hint Hpos. unfold Go.is_int, Go.int_min, Go.int_max, Go.len in *.
  unfold insert_shift, bind, load_chain. simpl.
  rewrite chain_of_put, store_chain_put. simpl. rewrite chain_of_put.
  unfold Go.int_sub.
  rewrite !wrap_id by (unfold Go.is_int, Go.int_min, Go.int_max; lia).
  unfold Go.slice_from, Go.len. rewrite length_app. simpl.
  rewrite !decide_True by lia.
  rewrite store_chain_put. simpl. rewrite chain_of_put.
  assert (Hlen : length (Go.copy_within (cur ++ ["newvalue"]) (Z.to_nat (pos - 1))
                           (Z.to_nat (pos - 2))) = S (length cur)).
  { unfold Go.copy_within. rewrite !length_app, !length_take, !length_drop, !length_app.
    simpl. lia. }
  unfold Go.store_index, Go.len. rewrite Hlen.
  rewrite decide_True by lia.
  rewrite store_chain_put.
  replace (Z.to_nat (pos - 2)) with (Z.to_nat (pos - 1) - 1)%nat by lia.
  rewrite shift_is_insertion by lia. reflexivity.
Qed.

(** [Insert] on a batched table, for a position from 1 on. *)
Lemma Insert_batched table chain pos rulespec b :
  is_Some (batchTables b !! table) -> Go.is_int pos -> 1 <= pos ->
  Insert table chain pos rulespec b =
  (Returned nil_error,
   set_rules (put_chain (rules b) table chain
                (insert_at pos (Go.Join rulespec " ") (chain_of (rules b) table chain))) b).
Proof.
  intros Hb Hint Hpos. unfold Insert.
  unfold bind at 1. rewrite batched_true by done. simpl.
  rewrite ensure_chain_run. unfold insert_at.
  destruct (pos =? 1) eqn:H1.
  { unfold bind. by rewrite store_chain_put. }
  destruct (Go.len (chain_of (rules b) table chain) <? pos) eqn:H2.
  { unfold bind. by rewrite store_chain_put. }
  apply Z.eqb_neq in H1. apply Z.ltb_ge in H2.
  unfold bind. rewrite insert_shift_inside by (done || lia). reflexivity.
Qed.

(** The third branch of [Insert] for a position below 1: the placeholder
    is appended, then both windows of the [copy] are out of range. *)
Lemma insert_shift_below r table chain pos rule cur b :
  Go.is_int pos -> pos <= 0 -> Go.len cur + 2 < Go.int_max ->
  Go.slice_from (cur ++ ["newvalue"]) (Go.int_sub pos 1) = None /\
  Go.slice_from (cur ++ ["newvalue"]) (Go.int_sub pos 2) = None /\
  insert_shift (K:=K) table chain pos rule (set_rules (put_chain r table chain cur) b) =
  (Panicked "slice bounds out of range",
   set_rules (put_chain r table chain (cur ++ ["newvalue"])) b).
Proof.
  intros Hint Hpos Hlen.
  assert (H1 : Go.slice_from (cur ++ ["newvalue"]) (Go.int_sub pos 1) = None).
  { unfold Go.slice_from, Go.int_sub, Go.len in *. rewrite length_app. simpl.
    apply decide_False.
    unfold Go.is_int, Go.int_min, Go.int_max in *.
    destruct (decide (pos = - 2 ^ 63)) as [->|Hne].
    - rewrite wrap_below by (unfold Go.int_min; lia). lia.
    - rewrite wrap_id by (unfold Go.is_int, Go.int_min, Go.int_max; lia). lia. }
  assert (H2 : Go.slice_from (cur ++ ["newvalue"]) (Go.int_sub pos 2) = None).
  { unfold Go.slice_from, Go.int_sub, Go.len in *. rewrite length_app. simpl.
    apply decide_False.
    unfold Go.is_int, Go.int_min, Go.int_max in *.
    destruct (decide (pos <= - 2 ^ 63 + 1)) as [Hlow|Hne].
    - rewrite wrap_below by (unfold Go.int_min; lia). lia.
    - rewrite wrap_id by (unfold Go.is_int, Go.int_min, Go.int_max; lia). lia. }
  split; [done|]. split; [done|].
  unfold insert_shift, bind, load_chain. simpl.
  rewrite chain_of_put, store_chain_put. simpl. rewrite chain_of_put.
  by rewrite H1.
Qed.

(** [Insert] on a batched table, for a position below 1. *)
Lemma Insert_batched_below table chain pos rulespec b :
  is_Some (batchTables b !! table) -> Go.is_int pos -> pos <= 0 ->
  Go.len (chain_of (rules b) table chain) + 2 < Go.int_max ->
  Insert table chain pos rulespec b =
  (Panicked "slice bounds out of range",
   set_rules (put_chain (rules b) table chain
                (chain_of (rules b) table chain ++ ["newvalue"])) b).
Proof.
  intros Hb Hint Hpos Hlen. unfold Insert.
  unfold bind at 1. rewrite batched_true by done. simpl.
  rewrite ensure_chain_run.
  destruct (pos =? 1) eqn:H1; [apply Z.eqb_eq in H1; lia|].
  destruct (Go.len (chain_of (rules b) table chain) <? pos) eqn:H2.
  { apply Z.ltb_lt in H2. unfold Go.len in H2. lia. }
  unfold bind.
  destruct (insert_shift_below (rules b) table chain pos (Go.Join rulespec " ")
              (chain_of (rules b) table chain) b Hint Hpos Hlen) as (_ & _ & ->).
  reflexivity.
Qed.

Lemma slice_middle (front mid back : list string) :
  Go.slice (front ++ mid ++ back) (Go.len front) (Go.len front + Go.len mid) = Some mid.
Proof.
  unfold Go.slice, Go.len. rewrite !length_app.
  rewrite decide_True by lia. f_equal.
  rewrite Nat2Z.id. rewrite drop_app_length.
  replace (Z.to_nat (Z.of_nat (length front) + Z.of_nat (length mid) - Z.of_nat (length front)))
    with (length mid) by lia.
  apply take_app_length.
Qed.

Lemma reslice_middle (s front mid back : list string) lo hi b :
  s = front ++ mid ++ back -> lo = Go.len front -> hi = Go.len front + Go.len mid ->
  reslice s lo hi b = (Returned mid, b).
Proof. intros -> -> ->. unfold reslice. by rewrite slice_middle. Qed.

Local Ltac slice_side :=
  first [ done
        | simpl; rewrite ?app_nil_r, <- ?app_assoc; done
        | unfold Go.len in *; rewrite ?length_app; simpl in *; lia ].

(** The [switch] of [Delete] cuts the element at [index] out. *)
Lemma delete_at_run r table chain (front : list string) x (back : list string) b :
  delete_at table chain (Go.len front)
    (set_rules (put_chain r table chain (front ++ x :: back)) b) =
  (Returned tt, set_rules (put_chain r table chain (front ++ back)) b).
Proof.
  unfold delete_at, bind, load_chain. simpl. rewrite chain_of_put.
  assert (Hlen : Go.len (front ++ x :: back) = Go.len front + 1 + Go.len back).
  { unfold Go.len. rewrite length_app. simpl. lia. }
  rewrite Hlen.
  destruct (Go.len front =? 0) eqn:H0.
  - apply Z.eqb_eq in H0.
    assert (front = []) as -> by (destruct front; [done | unfold Go.len in H0; simpl in H0; lia]).
    simpl.
    destruct (Go.len [] + 1 + Go.len back =? 1) eqn:H1.
    + apply Z.eqb_eq in H1.
      assert (back = []) as ->
        by (destruct back; [done | unfold Go.len in H1; simpl in H1; lia]).
      apply store_chain_put.
    + rewrite (reslice_middle _ [x] back []) by slice_side.
      apply store_chain_put.
  - destruct (Go.len front =? Go.len front + 1 + Go.len back - 1) eqn:H1.
    + apply Z.eqb_eq in H1.
      assert (back = []) as ->
        by (destruct back; [done | unfold Go.len in H1; simpl in H1; lia]).
      rewrite (reslice_middle _ [] front [x]) by slice_side.
      rewrite app_nil_r. apply store_chain_put.
    + rewrite (reslice_middle _ [] front (x :: back)) by slice_side.
      rewrite (reslice_middle _ (front ++ [x]) back []) by slice_side.
      apply store_chain_put.
Qed.

(** The loop of [Delete], having passed [front] without a match. *)
Lemma delete_loop_run r table chain rule (front rest : list string) b :
  delete_loop table chain rule (Go.len front) rest
    (set_rules (put_chain r table chain (front ++ rest)) b) =
  (Returned tt, set_rules (put_chain r table chain (front ++ remove_first rule rest)) b).
Proof.
  revert front. induction rest as [|x rest IH]; intros front; simpl.
  - reflexivity.
  - destruct (String.eqb rule x).
    + apply delete_at_run.
    + replace (Go.len front + 1) with (Go.len (front ++ [x]))
        by (unfold Go.len; rewrite length_app; simpl; lia).
      replace (front ++ x :: rest) with ((front ++ [x]) ++ rest) by (by rewrite <- app_assoc).
      rewrite IH. by rewrite <- app_assoc.
Qed.

(** [Delete] on a batched table. *)
Lemma Delete_batched table chain rulespec b :
  is_Some (batchTables b !! table) ->
  Delete table chain rulespec b =
  (Returned nil_error,
   match rules b !! table ≫= (.!! chain) with
   | Some cur =>
       set_rules (put_chain (rules b) table chain
                    (remove_first (Go.Join rulespec " ") cur)) b
   | None => b
   end).
Proof.
  intros Hb. unfold Delete.
  unfold bind at 1. rewrite batched_true by done. simpl.
  unfold bind, has_table, has_chain, load_chain, ret, chain_of.
  destruct (rules b !! table) as [chains|] eqn:Ht; simpl; [|done].
  rewrite Ht. simpl.
  destruct (chains !! chain) as [cur|] eqn:Hc; simpl; [|done].
  rewrite Ht. simpl. rewrite Hc. simpl.
  pose proof (delete_loop_run (rules b) table chain (Go.Join rulespec " ") [] cur b) as Hrun.
  simpl in Hrun. rewrite (put_same _ _ _ _ _ Ht Hc), set_rules_same in Hrun.
  change (Go.len []) with 0 in Hrun. by rewrite Hrun.
Qed.

(** [NewChain] on a batched table. *)
Lemma NewChain_batched table chain b :
  is_Some (batchTables b !! table) ->
  NewChain table chain b =
  (Returned nil_error, set_rules (put_chain (rules b) table chain []) b).
Proof.
  intros Hb. unfold NewChain.
  unfold bind at 1. rewrite batched_true by done. simpl.
  unfold bind, has_table, when, make_table, store_chain, ret, put_chain.
  destruct (rules b !! table) as [chains|] eqn:Ht; simpl.
  - by rewrite Ht.
  - rewrite lookup_insert_eq. simpl. by rewrite insert_insert_eq.
Qed.

(** A method on a table that is not batched is the passthrough method. *)
Lemma forward_direct table (op : K -> error * K) (rest : M K error) b :
  batchTables b !! table = None ->
  (ok <~ batched table ;; if negb ok then forward op else rest) b =
  (Returned (op (ipt b)).1, set_ipt (op (ipt b)).2 b).
Proof.
  intros Hb. unfold bind. rewrite batched_false by done. simpl.
  unfold forward. by destruct (op (ipt b)).
Qed.

End StoreFacts.


(** ** Facts about the version pattern *)

Lemma is_dot_eq (c : Ascii.ascii) : is_dot c = true -> c = "."%char.
Proof. unfold is_dot. apply Ascii.eqb_eq. Qed.

Lemma step_scanned (q q' : scan_state) (c : Ascii.ascii) (s rest : string) :
  step q c = Some q' -> scanned q' s rest -> scanned q (String c s) rest.
Proof.
  unfold step. intros Hstep Hq'.
  assert (Hdigit : forall mid, is_digit c = true -> more_digits s mid ->
                               number (String c s) mid).
  { intros mid Hd [-> | Hnum]; [by apply number_one | by apply number_more]. }
  assert (Hgroup : forall mid, number s mid -> more_groups mid rest ->
                               groups (String "."%char s) rest).
  { intros mid Hnum [-> | Hg]; [by apply groups_one | by eapply groups_more]. }
  destruct q; destruct (is_digit c) eqn:Hd; simplify_eq; simpl in *.
  - destruct Hq' as (mid & Hnum & Hg). exists mid. split; [by apply Hdigit | done].
  - destruct Hq' as (mid & Hnum & Hg). exists mid.
    split; [right; by apply Hdigit | done].
  - destruct (is_dot c) eqn:Hdot; simplify_eq. apply is_dot_eq in Hdot as ->.
    destruct Hq' as (mid & Hnum & Hg). eexists.
    split; [by left | by eapply Hgroup].
  - destruct Hq' as (mid & Hnum & Hg). exists mid. split; [by apply Hdigit | done].
  - destruct Hq' as (mid & Hnum & Hg). exists mid.
    split; [right; by apply Hdigit | done].
  - destruct (is_dot c) eqn:Hdot; simplify_eq. apply is_dot_eq in Hdot as ->.
    destruct Hq' as (mid & Hnum & Hg). eexists.
    split; [by left | right; by eapply Hgroup].
Qed.

Lemma stop_scanned (q : scan_state) (t : string) :
  (if accepting q then Some EmptyString else None) = Some t -> t = EmptyString /\ scanned q EmptyString EmptyString.
Proof.
  destruct q; simpl; intros; simplify_eq. split; [done|].
  exists EmptyString. split; by left.
Qed.

(** A match of [scan] is a text of the pattern, and a prefix of the input. *)
Lemma scan_sound (s : string) (q : scan_state) (t : string) :
  scan q s = Some t -> scanned q t EmptyString /\ exists rest, s = t +:+ rest.
Proof.
  revert q t. induction s as [|c s IH]; intros q t Hscan; simpl in Hscan.
  - apply stop_scanned in Hscan as [-> Hq]. split; [done|]. by exists EmptyString.
  - destruct (step q c) as [q'|] eqn:Hstep.
    + destruct (scan q' s) as [t'|] eqn:Hrest.
      * simplify_eq. destruct (IH _ _ Hrest) as [Hq' [rest ->]].
        split; [by eapply step_scanned|]. by exists rest.
      * apply stop_scanned in Hscan as [-> Hq]. split; [done|]. by eexists.
    + apply stop_scanned in Hscan as [-> Hq]. split; [done|]. by eexists.
Qed.

Lemma number_frame (s mid rest : string) :
  number s mid -> number (s +:+ rest) (mid +:+ rest).
Proof.
  induction 1 as [c s Hd | c s mid Hd Hnum IH].
  - by apply number_one.
  - by apply (number_more c (s +:+ rest)).
Qed.

Lemma groups_frame (s mid rest : string) :
  groups s mid -> groups (s +:+ rest) (mid +:+ rest).
Proof.
  induction 1 as [s mid Hnum | s mid' mid Hnum Hg IH].
  - apply (groups_one (s +:+ rest)). by apply number_frame.
  - apply (groups_more (s +:+ rest) (mid' +:+ rest)); [by apply number_frame | done].
Qed.

Lemma scan_InGroup (s : string) : is_Some (scan InGroup s).
Proof.
  destruct s as [|c s]; simpl; repeat case_match; by eexists.
Qed.

Lemma number_starts (s mid : string) :
  number s mid -> exists c s', s = String c s' /\ is_digit c = true.
Proof. destruct 1; eauto. Qed.

Lemma scan_groups (q : scan_state) (mid rest : string) :
  q = InNumber \/ q = InGroup -> groups mid rest -> is_Some (scan q mid).
Proof.
  intros Hq Hg.
  assert (exists d s, mid = String "."%char (String d s) /\ is_digit d = true)
    as (d & s & -> & Hd).
  { destruct Hg as [s ? Hnum | s ? ? Hnum _];
      apply number_starts in Hnum as (d & s' & -> & Hd); eauto. }
  destruct (scan_InGroup s) as [t Ht].
  destruct Hq as [-> | ->]; simpl; rewrite Hd, Ht; by eexists.
Qed.

Lemma scan_number (s mid : string) :
  number s mid -> is_Some (scan InNumber mid) ->
  is_Some (scan AtNumber s) /\ is_Some (scan InNumber s).
Proof.
  induction 1 as [c s Hd | c s mid Hd Hnum IH]; intros Hmid.
  - destruct Hmid as [t Ht]. simpl. rewrite Hd, Ht. split; by eexists.
  - destruct (IH Hmid) as [_ [t Ht]]. simpl. rewrite Hd, Ht. split; by eexists.
Qed.

(** Wherever a text of the pattern starts, [scan] finds a match. *)
Lemma scan_complete (s rest : string) :
  version_prefix s rest -> is_Some (scan AtNumber s).
Proof.
  intros (mid & Hnum & Hg).
  apply (scan_number s mid Hnum). eapply scan_groups; [by left | done].
Qed.

Lemma FindStringSubmatch_None (out : string) :
  FindStringSubmatch out = None <-> ~ has_version_token out.
Proof.
  induction out as [|c out IH]; simpl.
  - split; [|done]. intros _ Htok. inversion Htok.
  - split.
    + intros Hfind Htok. inversion Htok as [s rest Hpre | c' s Hlater]; subst.
      * simpl in Hfind. destruct (scan_complete _ _ Hpre) as [t Ht].
        by rewrite Ht in Hfind.
      * destruct (Ascii.eqb c "v"); [destruct (scan AtNumber out)|]; try done;
          by apply IH in Hfind.
    + intros Hno.
      assert (FindStringSubmatch out = None) as Hout.
      { apply IH. intros Htok. apply Hno. by apply token_later. }
      destruct (Ascii.eqb c "v") eqn:Hv; [|done].
      destruct (scan AtNumber out) as [t|] eqn:Hscan; [|done].
      exfalso. apply Hno. apply Ascii.eqb_eq in Hv as ->.
      apply scan_sound in Hscan as [Hq [rest ->]].
      apply (token_here _ rest). destruct Hq as (mid & Hnum & Hg).
      exists (mid +:+ rest). split; [by apply number_frame|].
      by apply (groups_frame mid EmptyString rest).
Qed.

Lemma FindStringSubmatch_None_inv (out : string) :
  FindStringSubmatch out <> None -> has_version_token out.
Proof.
  intros Hfind. destruct (FindStringSubmatch out) as [found|] eqn:Hout; [|done].
  clear Hfind. revert found Hout.
  induction out as [|c out IH]; simpl; [done|]. intros found.
  destruct (Ascii.eqb c "v") eqn:Hv; [|intros; eapply token_later, IH; done].
  destruct (scan AtNumber out) as [t|] eqn:Hscan; [|intros; eapply token_later, IH; done].
  intros _. apply Ascii.eqb_eq in Hv as ->.
  apply scan_sound in Hscan as [Hq [rest ->]].
  apply (token_here _ rest). destruct Hq as (mid & Hnum & Hg).
  exists (mid +:+ rest). split; [by apply number_frame|].
  by apply (groups_frame mid EmptyString rest).
Qed.

Lemma FindStringSubmatch_Some (out : string) (found : list string) :
  FindStringSubmatch out = Some found ->
  exists t, found = [String "v"%char t; t; last_group t] /\ version_text t.
Proof.
  induction out as [|c out IH]; simpl; [done|].
  destruct (Ascii.eqb c "v") eqn:Hv; [|done].
  destruct (scan AtNumber out) as [t|] eqn:Hscan; [|done].
  intros; simplify_eq. apply Ascii.eqb_eq in Hv as ->.
  exists t. split; [done|]. by apply scan_sound in Hscan as [Hq _].
Qed.

(** ** The cached store: position rule, removal, frame *)

(** C1. On a batched table, [Insert] with [pos = 1] puts the joined rule
    first; with [pos] beyond the length of the chain it puts the rule last;
    with [2 <= pos <= len] it puts the rule in front of the element [x] at
    the 1-based position [pos], the elements [front] before it and [back]
    after it keeping their order.  Nothing but the list of this chain
    changes, and no error is returned. *)
Theorem Insert_follows_position_rule {K : Type} `{BaseIPTables K}
    (b : BatchProvider K) (table chain : string) (pos : Z) (rulespec : list string) :
  is_Some (batchTables b !! table) -> Go.is_int pos ->
  let cur := chain_of (rules b) table chain in
  let rule := Go.Join rulespec " " in
  let inserted (l : list string) :=
    Insert table chain pos rulespec b =
    (Returned nil_error, set_rules (put_chain (rules b) table chain l) b) in
  (pos = 1 -> inserted (rule :: cur)) /\
  (Go.len cur < pos -> inserted (cur ++ [rule])) /\
  (2 <= pos <= Go.len cur ->
   exists front x back,
     cur = front ++ x :: back /\ Go.len front = pos - 1 /\
     inserted (front ++ rule :: x :: back)).
Proof.
  intros Hb Hint cur rule inserted. subst inserted. simpl.
  split; [|split].
  - intros ->. by rewrite Insert_batched.
  - intros Hpos.
    assert (0 <= Go.len cur) by (unfold Go.len; lia).
    rewrite Insert_batched by (done || lia). unfold insert_at. fold cur rule.
    destruct (pos =? 1) eqn:H1.
    + apply Z.eqb_eq in H1 as ->.
      assert (cur = []) as -> by (destruct cur; [done | unfold Go.len in *; simpl in *; lia]).
      done.
    + by rewrite (proj2 (Z.ltb_lt _ _) Hpos).
  - intros Hpos.
    assert (Hsplit : (Z.to_nat (pos - 1) < length cur)%nat) by (unfold Go.len in *; lia).
    apply lookup_lt_is_Some in Hsplit as [x Hx].
    exists (take (Z.to_nat (pos - 1)) cur), x, (drop (S (Z.to_nat (pos - 1))) cur).
    split; [by rewrite take_drop_middle|].
    split.
    { unfold Go.len in *. rewrite length_take. lia. }
    rewrite Insert_batched by (done || lia). unfold insert_at. fold cur rule.
    rewrite (proj2 (Z.eqb_neq _ _)) by lia.
    rewrite (proj2 (Z.ltb_ge _ _)) by lia.
    by rewrite (drop_S _ _ _ Hx).
Qed.

Lemma Insert_follows_position_rule_witness :
  is_Some (batchTables abc_provider !! "filter") /\ Go.is_int 2 /\
  exists front x back,
    ["a"; "b"; "c"] = front ++ x :: back /\ Go.len front = 2 - 1 /\
    Insert "filter" "INPUT" 2 ["x"] abc_provider =
    (Returned nil_error,
     set_rules (put_chain (rules abc_provider) "filter" "INPUT"
                  (front ++ "x" :: x :: back)) abc_provider).
Proof.
  assert (Hb : is_Some (batchTables abc_provider !! "filter")) by (exists true; reflexivity).
  assert (Hint : Go.is_int 2) by (unfold Go.is_int, Go.int_min, Go.int_max; lia).
  split; [exact Hb|]. split; [exact Hint|].
  apply (Insert_follows_position_rule abc_provider "filter" "INPUT" 2 ["x"] Hb Hint).
  vm_compute. split; discriminate.
Defined.

(** C2. On a batched table, [Delete] returns no error; it leaves the
    provider as it is when the table, the chain or an element equal to the
    joined rule is missing; else it takes out the first element that is
    equal, as a string, to the rule specification joined by single spaces,
    and keeps the elements in front of it and behind it in their order. *)
Theorem Delete_removes_first_match {K : Type} `{BaseIPTables K}
    (b : BatchProvider K) (table chain : string) (rulespec : list string) :
  is_Some (batchTables b !! table) ->
  let rule := Go.Join rulespec " " in
  exists b',
    Delete table chain rulespec b = (Returned nil_error, b') /\
    (rules b !! table = None -> b' = b) /\
    (forall chains, rules b !! table = Some chains -> chains !! chain = None -> b' = b) /\
    (forall chains cur,
       rules b !! table = Some chains -> chains !! chain = Some cur ->
       (rule ∉ cur -> b' = b) /\
       (forall front back,
          cur = front ++ rule :: back -> rule ∉ front ->
          b' = set_rules (put_chain (rules b) table chain (front ++ back)) b)).
Proof.
  intros Hb rule. eexists. split; [by apply Delete_batched|]. fold rule.
  split; [by intros ->|].
  split; [intros chains -> ; simpl; by intros ->|].
  intros chains cur Ht Hc. rewrite Ht. simpl. rewrite Hc.
  split.
  - intros Hnotin. rewrite remove_first_absent by done.
    by rewrite (put_same _ _ _ _ _ Ht Hc), set_rules_same.
  - intros front back -> Hfront. by rewrite remove_first_split.
Qed.

Lemma Delete_removes_first_match_witness :
  is_Some (batchTables abc_provider !! "filter") /\
  exists b',
    Delete "filter" "INPUT" ["b"] abc_provider = (Returned nil_error, b') /\
    chain_of (rules b') "filter" "INPUT" = ["a"; "c"].
Proof.
  assert (Hb : is_Some (batchTables abc_provider !! "filter")) by (exists true; reflexivity).
  split; [exact Hb|].
  destruct (Delete_removes_first_match abc_provider "filter" "INPUT" ["b"] Hb)
    as (b' & Hrun & _ & _ & Hcur).
  exists b'. split; [exact Hrun|].
  destruct (Hcur {["INPUT" := ["a"; "b"; "c"]]} ["a"; "b"; "c"] eq_refl eq_refl) as [_ Hcut].
  rewrite (Hcut ["a"] ["c"] eq_refl).
  - reflexivity.
  - intros Hin. apply list_elem_of_In in Hin. simpl in Hin.
    destruct Hin as [Heq | []]. discriminate Heq.
Defined.

(** C9. On a batched table, [Insert] returns only for positions from 1 on.
    For every [pos <= 0] the third branch is taken: the placeholder is
    appended, the lower bounds [pos-1] and [pos-2] of the two windows of the
    [copy] are out of range, and the call panics on its slice bounds.  For
    every [pos >= 1] the call returns without error. *)
Theorem Insert_panics_below_one {K : Type} `{BaseIPTables K}
    (b : BatchProvider K) (table chain : string) (pos : Z) (rulespec : list string) :
  is_Some (batchTables b !! table) -> Go.is_int pos ->
  let cur := chain_of (rules b) table chain in
  Go.len cur + 2 < Go.int_max ->
  (pos <= 0 ->
   Go.slice_from (cur ++ ["newvalue"]) (Go.int_sub pos 1) = None /\
   Go.slice_from (cur ++ ["newvalue"]) (Go.int_sub pos 2) = None /\
   Insert table chain pos rulespec b =
   (Panicked "slice bounds out of range",
    set_rules (put_chain (rules b) table chain (cur ++ ["newvalue"])) b)) /\
  (1 <= pos ->
   exists b', Insert table chain pos rulespec b = (Returned nil_error, b')).
Proof.
  intros Hb Hint cur Hlen. split.
  - intros Hpos.
    destruct (insert_shift_below (K:=K) (rules b) table chain pos EmptyString cur b
                Hint Hpos Hlen) as (Hdst & Hsrc & _).
    split; [done|]. split; [done|]. by apply Insert_batched_below.
  - intros Hpos. eexists. by apply Insert_batched.
Qed.

Lemma Insert_panics_below_one_witness :
  is_Some (batchTables abc_provider !! "filter") /\ Go.is_int 0 /\
  Go.len (chain_of (rules abc_provider) "filter" "INPUT") + 2 < Go.int_max /\
  Go.slice_from (["a"; "b"; "c"] ++ ["newvalue"]) (Go.int_sub 0 1) = None /\
  Go.slice_from (["a"; "b"; "c"] ++ ["newvalue"]) (Go.int_sub 0 2) = None /\
  Insert "filter" "INPUT" 0 ["x"] abc_provider =
  (Panicked "slice bounds out of range",
   set_rules (put_chain (rules abc_provider) "filter" "INPUT"
                (["a"; "b"; "c"] ++ ["newvalue"])) abc_provider).
Proof.
  assert (Hb : is_Some (batchTables abc_provider !! "filter")) by (exists true; reflexivity).
  assert (Hint : Go.is_int 0) by (unfold Go.is_int, Go.int_min, Go.int_max; lia).
  assert (Hlen : Go.len (chain_of (rules abc_provider) "filter" "INPUT") + 2 < Go.int_max)
    by (vm_compute; reflexivity).
  split; [exact Hb|]. split; [exact Hint|]. split; [exact Hlen|].
  apply (Insert_panics_below_one abc_provider "filter" "INPUT" 0 ["x"] Hb Hint Hlen).
  lia.
Defined.

(** C10. On a batched table, [NewChain] sets the list of the chain to the
    empty list whatever the chain held: the entry of the chain is the empty
    list afterwards, a second call changes nothing more, and on a chain that
    held rules the call does change the store. *)
Theorem NewChain_resets_chain {K : Type} `{BaseIPTables K}
    (b : BatchProvider K) (table chain : string) :
  is_Some (batchTables b !! table) ->
  let b' := set_rules (put_chain (rules b) table chain []) b in
  NewChain table chain b = (Returned nil_error, b') /\
  rules b' !! table ≫= (.!! chain) = Some [] /\
  NewChain table chain b' = (Returned nil_error, b') /\
  (chain_of (rules b) table chain <> [] -> rules b' <> rules b).
Proof.
  intros Hb b'. split; [by apply NewChain_batched|].
  split.
  { simpl. unfold put_chain. rewrite lookup_insert_eq. simpl. by rewrite lookup_insert_eq. }
  split.
  { rewrite NewChain_batched by done. subst b'. simpl.
    by rewrite put_put, set_rules_twice. }
  intros Hheld Heq. apply Hheld. rewrite <- Heq. subst b'. simpl.
  apply chain_of_put.
Qed.

Lemma NewChain_resets_chain_witness :
  is_Some (batchTables abc_provider !! "filter") /\
  NewChain "filter" "INPUT" abc_provider =
  (Returned nil_error,
   set_rules (put_chain (rules abc_provider) "filter" "INPUT" []) abc_provider) /\
  chain_of (rules abc_provider) "filter" "INPUT" = ["a"; "b"; "c"].
Proof.
  assert (Hb : is_Some (batchTables abc_provider !! "filter")) by (exists true; reflexivity).
  split; [exact Hb|]. split; [|reflexivity].
  apply (NewChain_resets_chain abc_provider "filter" "INPUT" Hb).
Defined.

(** C7. [ListChains] is the call of the passthrough for every table, batched
    or not: its result and the new state of the passthrough are those of
    [ipt.ListChains], they are the same whatever the cached store holds, and
    the store is left as it was. *)
Theorem ListChains_always_forwards {K : Type} `{BaseIPTables K}
    (b : BatchProvider K) (table : string) :
  ListChains table b =
  (Returned (ipt_ListChains table (ipt b)).1, set_ipt (ipt_ListChains table (ipt b)).2 b) /\
  rules (ListChains table b).2 = rules b /\
  forall r,
    (ListChains table (set_rules r b)).1 = (ListChains table b).1 /\
    ipt (ListChains table (set_rules r b)).2 = ipt (ListChains table b).2 /\
    rules (ListChains table (set_rules r b)).2 = r.
Proof.
  unfold ListChains, forward. simpl.
  destruct (ipt_ListChains table (ipt b)) as [res k]. simpl. done.
Qed.

(** C8. On a table that is not batched, each of [Append], [Insert],
    [Delete], [ClearChain], [DeleteChain] and [NewChain] makes one call of
    the passthrough, the call of the same name with the same arguments: the
    record of calls grows by this one entry, the result is the result of the
    passthrough, and the cached store is the one from before the call. *)
Theorem direct_tables_forward_once {K : Type} `{BaseIPTables K}
    (b : BatchProvider (Recorder K)) (table chain : string) (pos : Z)
    (rulespec : list string) :
  batchTables b !! table = None ->
  let forwarded (c : Call) (op : K -> error * K) (method : M (Recorder K) error) :=
    method b =
    (Returned (op (inner (ipt b))).1,
     set_ipt (mkRecorder (op (inner (ipt b))).2 (calls (ipt b) ++ [c])) b) /\
    rules (method b).2 = rules b in
  forwarded (CallAppend table chain rulespec) (ipt_Append table chain rulespec)
    (Append table chain rulespec) /\
  forwarded (CallInsert table chain pos rulespec) (ipt_Insert table chain pos rulespec)
    (Insert table chain pos rulespec) /\
  forwarded (CallDelete table chain rulespec) (ipt_Delete table chain rulespec)
    (Delete table chain rulespec) /\
  forwarded (CallClearChain table chain) (ipt_ClearChain table chain)
    (ClearChain table chain) /\
  forwarded (CallDeleteChain table chain) (ipt_DeleteChain table chain)
    (DeleteChain table chain) /\
  forwarded (CallNewChain table chain) (ipt_NewChain table chain)
    (NewChain table chain).
Proof.
  intros Hb forwarded. subst forwarded. simpl.
  unfold Append, Insert, Delete, ClearChain, DeleteChain, NewChain.
  rewrite !forward_direct by done. simpl. unfold recording.
  repeat split;
    match goal with
    | |- context [?op (inner (ipt b))] => by destruct (op (inner (ipt b)))
    end.
Qed.

Lemma direct_tables_forward_once_witness :
  batchTables direct_provider !! "filter" = None /\
  Append "filter" "INPUT" ["-j"; "DROP"] direct_provider =
  (Returned None,
   set_ipt (mkRecorder tt [CallAppend "filter" "INPUT" ["-j"; "DROP"]]) direct_provider).
Proof.
  assert (Hb : batchTables direct_provider !! "filter" = None) by reflexivity.
  split; [exact Hb|].
  pose proof (direct_tables_forward_once direct_provider "filter" "INPUT" 1
                ["-j"; "DROP"] Hb) as Hcalls.
  cbv zeta beta in Hcalls. destruct Hcalls as [[Happend _] _]. exact Happend.
Defined.

(** ** The buffer of [Commit] *)

Lemma range_order_singleton {A : Type} (key : string) (x : A) (keys : list string) :
  range_order ({[key := x]} : gmap string A) keys <-> keys = [key].
Proof.
  unfold range_order. rewrite map_to_list_singleton. simpl.
  split; [apply Permutation_singleton_r | by intros ->].
Qed.

Lemma valid_order_nat_store (order : list table_visit) :
  valid_order nat_store order <-> order = [mkVisit "nat" ["PREROUTING"] ["PREROUTING"]].
Proof.
  unfold valid_order, nat_store. rewrite range_order_singleton. split.
  - intros [Htables Hchains].
    destruct order as [|[table declare fill] [|? ?]]; simplify_eq/=.
    rewrite Forall_singleton in Hchains. simpl in Hchains.
    rewrite lookup_singleton_eq in Hchains. simpl in Hchains.
    rewrite !range_order_singleton in Hchains. by destruct Hchains as [-> ->].
  - intros ->. split; [done|]. rewrite Forall_singleton. simpl.
    rewrite lookup_singleton_eq. simpl. by rewrite !range_order_singleton.
Qed.

(** C3. When the store is the table [nat] with the chain [PREROUTING]
    holding [-j DNAT] and [-p tcp], then, in whatever order the maps are
    ranged over, [createDataBuffer] yields the five lines of [nat_buffer],
    and [Commit], which runs unless no table is batched, hands this buffer to
    the commit function and returns its result. *)
Theorem Commit_buffer_of_nat_store {K : Type} `{BaseIPTables K}
    (b : BatchProvider K) (order : list table_visit) :
  rules b = nat_store -> valid_order (rules b) order ->
  createDataBuffer order (rules b) = Ok nat_buffer /\
  (batchTables b <> ∅ -> Commit order b = (Returned (commitFunc b nat_buffer), b)).
Proof.
  intros Hstore Horder. rewrite Hstore in *.
  apply valid_order_nat_store in Horder as ->.
  assert (Hbuf : createDataBuffer [mkVisit "nat" ["PREROUTING"] ["PREROUTING"]] nat_store
                 = Ok nat_buffer) by (vm_compute; reflexivity).
  split; [exact Hbuf|].
  intros Hbatch. unfold Commit.
  rewrite decide_False by (by rewrite map_size_empty_iff).
  by rewrite Hstore, Hbuf.
Qed.

Lemma Commit_buffer_of_nat_store_witness :
  rules nat_provider = nat_store /\
  valid_order (rules nat_provider) [mkVisit "nat" ["PREROUTING"] ["PREROUTING"]] /\
  createDataBuffer [mkVisit "nat" ["PREROUTING"] ["PREROUTING"]] (rules nat_provider)
  = Ok nat_buffer.
Proof.
  assert (Horder : valid_order (rules nat_provider)
                     [mkVisit "nat" ["PREROUTING"] ["PREROUTING"]])
    by (by apply valid_order_nat_store).
  split; [reflexivity|]. split; [exact Horder|].
  apply (Commit_buffer_of_nat_store nat_provider _ eq_refl Horder).
Defined.

(** ** The resolver of the original destination *)

Lemma int_of_byte_range (b : Go.byte) : 0 <= Go.int_of_byte b < 256.
Proof.
  unfold Go.int_of_byte. pose proof (Byte.to_N_bounded b) as Hb. lia.
Qed.

(** The port expression [int(hi)<<8 + int(lo)] is the big-endian value of the
    two bytes. *)
Lemma port_big_endian (hi lo : Go.byte) :
  Go.int_add (Go.int_shl (Go.int_of_byte hi) 8) (Go.int_of_byte lo) =
  256 * Go.int_of_byte hi + Go.int_of_byte lo.
Proof.
  pose proof (int_of_byte_range hi). pose proof (int_of_byte_range lo).
  unfold Go.int_add, Go.int_shl. rewrite Z.shiftl_mul_pow2 by lia.
  change (2 ^ 8) with 256.
  rewrite (wrap_id (Go.int_of_byte hi * 256))
    by (unfold Go.is_int, Go.int_min, Go.int_max; lia).
  rewrite wrap_id by (unfold Go.is_int, Go.int_min, Go.int_max; lia).
  lia.
Qed.

Section ResolverFacts.

Import markedconn.
Context `{Runtime}.

(** One run of the closure for the chosen protocol that meets a query
  error or a wrong family sets [err]. *)
Lemma getsockopt_rejects (getOrigDest : origDest) (v4Proto : bool) (fd : Z) (vars : locals) :
let answer :=
  if v4Proto then
    let '(addr, e1) := fill4 getOrigDest SYS_GETSOCKOPT fd SOL_IP sockOptOriginalDst in
    (family4 addr, e1)
  else
    let '(addr, e1) := fill6 getOrigDest SYS_GETSOCKOPT fd SOL_IPV6 sockOptOriginalDst in
    (family6 addr, e1) in
answer.2 <> 0 \/ answer.1 <> expected_family v4Proto ->
exists e,
  err ((if v4Proto then getsockopt4 getOrigDest else getsockopt6 getOrigDest) fd vars)
  = Some e.
Proof.
destruct v4Proto; simpl; unfold getsockopt4, getsockopt6.
- destruct (fill4 _ _ _ _ _) as [addr e1]. simpl. intros Hbad.
  destruct (e1 =? 0) eqn:He; simpl; [|by eexists].
  destruct (family4 addr =? AF_INET) eqn:Hf; simpl; [|by eexists].
  apply Z.eqb_eq in He, Hf. destruct Hbad; done.
- destruct (fill6 _ _ _ _ _) as [addr e1]. simpl. intros Hbad.
  destruct (e1 =? 0) eqn:He; simpl; [|by eexists].
  destruct (family6 addr =? AF_INET6) eqn:Hf; simpl; [|by eexists].
  apply Z.eqb_eq in He, Hf. destruct Hbad; done.
Qed.

(** [getOriginalDestInternal] has an error exactly when it has no address. *)
Lemma getOriginalDestInternal_error (rawConn : passFD) (v4Proto : bool)
  (getOrigDest : origDest) (e : string) :
(getOriginalDestInternal rawConn v4Proto getOrigDest).2 = Some e ->
getOriginalDestInternal rawConn v4Proto getOrigDest = (None, 0, Some e).
Proof.
unfold getOriginalDestInternal, Control. simpl.
destruct (ctl_err rawConn); simpl; [by intros [= <-]|].
destruct (err _); simpl; [by intros [= <-] | done].
Qed.

Lemma recovery_failure_error (c : TCPConn) :
recovery_failure c -> exists e, GetOriginalDestination c = (None, 0, Some e).
Proof.
intros [e He | fds e host port Hraw Hsplit | fd host port Hraw Hsplit v4Proto Hbad];
  unfold GetOriginalDestination.
- destruct (SyscallConn c) as [rawconn err0]. simpl in He. subst. by eexists.
- rewrite Hraw, Hsplit. unfold getOriginalDestInternal, Control. simpl. by eexists.
- rewrite Hraw, Hsplit. fold v4Proto.
  unfold getOriginalDestInternal, Control. simpl.
  destruct (getsockopt_rejects Syscall6 v4Proto fd (mkLocals None 0 None) Hbad)
    as [e He].
  destruct v4Proto; rewrite He; by eexists.
Qed.

End ResolverFacts.

(** C5. For the answer of the kernel to the one query that a raw connection
    lets the resolver make: with IPv4 chosen and the tag [AF_INET], the port
    is the big-endian value of the first two data bytes and the address is
    the four bytes after them; with IPv6 chosen and the tag [AF_INET6], the
    port is the big-endian value of the port field and the address is the
    16 bytes of the address field.  When the tag is not the one of the
    chosen protocol, the resolver returns an error, no address and port 0,
    whatever the errno and whatever [Control] returns. *)
Theorem getOriginalDestInternal_decodes `{markedconn.Runtime}
    (getOrigDest : markedconn.origDest) (fd : Z) (ctl : error) :
  let query4 :=
    markedconn.fill4 getOrigDest markedconn.SYS_GETSOCKOPT fd markedconn.SOL_IP
      markedconn.sockOptOriginalDst in
  let query6 :=
    markedconn.fill6 getOrigDest markedconn.SYS_GETSOCKOPT fd markedconn.SOL_IPV6
      markedconn.sockOptOriginalDst in
  let once := markedconn.mkPassFD [fd] None in
  let any := markedconn.mkPassFD [fd] ctl in
  (forall d : vec Go.byte 14,
     query4 = (markedconn.mkSockaddr4 markedconn.AF_INET d, 0) ->
     markedconn.getOriginalDestInternal once true getOrigDest =
     (Some [d !!! 2%fin; d !!! 3%fin; d !!! 4%fin; d !!! 5%fin],
      256 * Go.int_of_byte (d !!! 0%fin) + Go.int_of_byte (d !!! 1%fin), None)) /\
  (forall addr,
     query6 = (addr, 0) -> markedconn.family6 addr = markedconn.AF_INET6 ->
     markedconn.getOriginalDestInternal once false getOrigDest =
     (Some (vec_to_list (markedconn.ip6 addr)),
      256 * Go.int_of_byte (markedconn.port6 addr !!! 0%fin)
      + Go.int_of_byte (markedconn.port6 addr !!! 1%fin), None) /\
     length (vec_to_list (markedconn.ip6 addr)) = 16%nat) /\
  (forall addr e1,
     query4 = (addr, e1) -> markedconn.family4 addr <> markedconn.AF_INET ->
     exists e, markedconn.getOriginalDestInternal any true getOrigDest = (None, 0, Some e)) /\
  (forall addr e1,
     query6 = (addr, e1) -> markedconn.family6 addr <> markedconn.AF_INET6 ->
     exists e, markedconn.getOriginalDestInternal any false getOrigDest = (None, 0, Some e)).
Proof.
  intros query4 query6 once any. subst query4 query6 once any.
  unfold markedconn.getOriginalDestInternal, markedconn.Control. simpl.
  unfold markedconn.getsockopt4, markedconn.getsockopt6.
  split; [|split; [|split]].
  - intros d ->. simpl. rewrite port_big_endian.
    inv_vec d; intros. reflexivity.
  - intros addr -> Hfamily. simpl. rewrite Hfamily, Z.eqb_refl. simpl.
    rewrite port_big_endian. split; [done | apply length_vec_to_list].
  - intros addr e1 -> Hfamily.
    destruct (e1 =? 0); simpl; [|destruct ctl; by eexists].
    rewrite (proj2 (Z.eqb_neq _ _) Hfamily). simpl. destruct ctl; by eexists.
  - intros addr e1 -> Hfamily.
    destruct (e1 =? 0); simpl; [|destruct ctl; by eexists].
    rewrite (proj2 (Z.eqb_neq _ _) Hfamily). simpl. destruct ctl; by eexists.
Qed.

Lemma getOriginalDestInternal_decodes_witness :
  markedconn.fill4 sample.kernel markedconn.SYS_GETSOCKOPT 12 markedconn.SOL_IP
    markedconn.sockOptOriginalDst
  = (markedconn.mkSockaddr4 markedconn.AF_INET (markedconn.data sample.reply4), 0) /\
  markedconn.getOriginalDestInternal (H := sample.runtime)
    (markedconn.mkPassFD [12] None) true sample.kernel =
  (Some [Byte.x0a; Byte.x01; Byte.x02; Byte.x03], 8080, None).
Proof.
  split; [reflexivity|].
  pose proof (getOriginalDestInternal_decodes (H := sample.runtime)
                sample.kernel 12 None) as Hdecode.
  cbv zeta in Hdecode. destruct Hdecode as [Hv4 _].
  exact (Hv4 (markedconn.data sample.reply4) eq_refl).
Defined.

(** ** The listener *)

(** C4, amended.  When the recovery of the original destination of an
    accepted connection fails (no raw handle, an error of [Control], a query
    error, a wrong family), [Accept] returns the error of the recovery and
    no connection.  It closes nothing: the open connections are those that
    the [Accept] of the wrapped listener left. *)
Theorem Accept_rejects_failed_recovery `{markedconn.Runtime}
    (l : markedconn.ProxiedListener) (open open' : markedconn.sockets)
    (c : markedconn.TCPConn) :
  markedconn.netListener_Accept l open = ((Some (markedconn.ConnTCP c), None), open') ->
  recovery_failure c ->
  exists e,
    markedconn.GetOriginalDestination c = (None, 0, Some e) /\
    markedconn.Accept l open = ((None, Some e), open').
Proof.
  intros Hinner Hfail.
  destruct (recovery_failure_error c Hfail) as [e He].
  exists e. split; [done|].
  unfold markedconn.Accept. by rewrite Hinner, He.
Qed.

Lemma Accept_rejects_failed_recovery_witness :
  markedconn.netListener_Accept sample.stale_listener ∅
  = ((Some (markedconn.ConnTCP sample.stale_conn), None), {[7%nat]} ∪ ∅) /\
  recovery_failure (H := sample.runtime) sample.stale_conn /\
  exists e,
    markedconn.GetOriginalDestination (H := sample.runtime) sample.stale_conn
    = (None, 0, Some e) /\
    markedconn.Accept (H := sample.runtime) sample.stale_listener ∅
    = ((None, Some e), {[7%nat]} ∪ ∅).
Proof.
  assert (Hfail : recovery_failure (H := sample.runtime) sample.stale_conn).
  { by apply (handle_failure _ "use of closed network connection"). }
  split; [reflexivity|]. split; [exact Hfail|].
  exact (Accept_rejects_failed_recovery (H := sample.runtime) sample.stale_listener
           ∅ _ sample.stale_conn eq_refl Hfail).
Defined.

(** The connection whose recovery failed is still open after [Accept]: the
    listener returned the error without closing it. *)
Lemma Accept_leaves_connection_open :
  recovery_failure (H := sample.runtime) sample.stale_conn /\
  ~ rejects_and_closes (H := sample.runtime) sample.stale_listener ∅ sample.stale_conn.
Proof.
  split.
  { by apply (handle_failure _ "use of closed network connection"). }
  intros (e & _ & Hclosed). apply Hclosed. simpl. set_solver.
Qed.

(** Closing is what takes a connection out of the open ones. *)
Lemma Close_closes (p : markedconn.ProxiedConnection) (open : markedconn.sockets) :
  markedconn.conn_id (markedconn.originalTCPConnection p) ∉ (markedconn.Close p open).2.
Proof.
  unfold markedconn.Close, markedconn.TCPConn_Close. simpl.
  rewrite elem_of_difference, elem_of_singleton. by intros [_ []].
Qed.

(** ** The capability probe *)

(** C6. [restoreHasWait] answers [false] when the run of the command with
    [--version] fails, and when the output has no [v] followed by a text of
    the version pattern.  Else the text found after the leftmost such [v] is
    handed to [NewVersion]; the answer is [false] when this fails, and
    otherwise it is [true] exactly when the version is greater than or equal
    to 1.6.2. *)
Theorem restoreHasWait_decides {V : Type} `{VersionLib V}
    (CombinedOutput : string -> list string -> string * error)
    (restoreCmd : string) (minimum : V) :
  NewVersion "1.6.2" = Ok minimum ->
  let run := CombinedOutput restoreCmd ["--version"] in
  let probe := restoreHasWait CombinedOutput restoreCmd in
  (run.2 <> None -> probe = false) /\
  (~ has_version_token run.1 -> probe = false) /\
  (run.2 = None -> has_version_token run.1 ->
   exists t,
     version_text t /\
     FindStringSubmatch run.1 ≫= (.!! 1%nat) = Some t /\
     match NewVersion t with
     | Err _ => probe = false
     | Ok v => probe = GreaterThanOrEqual v minimum
     end).
Proof.
  intros Hmin run probe. subst probe. unfold restoreHasWait. fold run.
  destruct run as [out err]. simpl.
  split; [|split].
  - by destruct err.
  - intros Hno. apply FindStringSubmatch_None in Hno. rewrite Hno. by destruct err.
  - intros -> Htoken.
    destruct (FindStringSubmatch out) as [found|] eqn:Hfind.
    2:{ by apply FindStringSubmatch_None in Hfind. }
    destruct (FindStringSubmatch_Some _ _ Hfind) as (t & -> & Ht).
    exists t. split; [done|]. split; [done|]. simpl.
    destruct (NewVersion t) as [v|]; [|done].
    rewrite Hmin. unfold LessThan, GreaterThanOrEqual.
    by rewrite Z.leb_antisym.
Qed.

Lemma restoreHasWait_decides_witness :
  @NewVersion (list Z) dotted.lib "1.6.2" = Ok [1; 6; 2] /\
  @restoreHasWait (list Z) dotted.lib legacy_output "iptables-restore" = true.
Proof.
  assert (Hmin : @NewVersion (list Z) dotted.lib "1.6.2" = Ok [1; 6; 2]) by reflexivity.
  split; [exact Hmin|].
  pose proof (@restoreHasWait_decides (list Z) dotted.lib legacy_output
                "iptables-restore" [1; 6; 2] Hmin) as Hprobe.
  cbv zeta in Hprobe. destruct Hprobe as (_ & _ & Hfound).
  destruct Hfound as (t & _ & Ht & Hversion).
  - reflexivity.
  - apply FindStringSubmatch_None_inv. discriminate.
  - simpl in Ht. injection Ht as <-. exact Hversion.
Defined.

(** ** Runs on concrete inputs *)

(** [Append] of [-p tcp], then [Insert] of [-j DNAT] at position 1, on the
    batched table [nat]: [RetrieveTable] shows the store of the
    serialization example. *)
Example append_insert_retrieve :
  let b0 : BatchProvider unit :=
    mkBatchProvider tt ∅ {["nat" := true]} (fun _ => None) "iptables-restore" in
  (Append "nat" "PREROUTING" ["-p"; "tcp"] ;;;
   Insert "nat" "PREROUTING" 1 ["-j"; "DNAT"] ;;;
   RetrieveTable) b0
  = (Returned nat_store, set_rules nat_store b0).
Proof. vm_compute. reflexivity. Qed.

Example insert_beyond_length_appends :
  chain_of (rules (Insert "filter" "INPUT" 8 ["x"] abc_provider).2) "filter" "INPUT"
  = ["a"; "b"; "c"; "x"].
Proof. vm_compute. reflexivity. Qed.

Example insert_at_length :
  chain_of (rules (Insert "filter" "INPUT" 3 ["x"] abc_provider).2) "filter" "INPUT"
  = ["a"; "b"; "x"; "c"].
Proof. vm_compute. reflexivity. Qed.

Example delete_absent_rule :
  Delete "filter" "INPUT" ["a"; "b"] abc_provider = (Returned None, abc_provider).
Proof.
  rewrite Delete_batched by (exists true; reflexivity).
  change (rules abc_provider !! "filter" ≫= (.!! "INPUT")) with (Some ["a"; "b"; "c"]).
  simpl. by rewrite (put_same _ _ _ {["INPUT" := ["a"; "b"; "c"]]}).
Qed.

Example probe_old_version :
  @restoreHasWait (list Z) dotted.lib
    (fun _ _ => ("iptables-restore v1.6.1", None)) "iptables-restore" = false.
Proof. reflexivity. Qed.

Example probe_minimum_version :
  @restoreHasWait (list Z) dotted.lib
    (fun _ _ => ("ip6tables-restore v1.6.2", None)) "ip6tables-restore" = true.
Proof. reflexivity. Qed.

Example probe_no_token :
  @restoreHasWait (list Z) dotted.lib
    (fun _ _ => ("iptables-restore version 1.8", None)) "iptables-restore" = false.
Proof. reflexivity. Qed.

Example probe_missing_binary :
  @restoreHasWait (list Z) dotted.lib
    (fun _ _ => (EmptyString, Some "executable file not found in $PATH"))
    "iptables-restore" = false.
Proof. reflexivity. Qed.

Example submatch_groups :
  FindStringSubmatch "vv1.22.3b" = Some ["v1.22.3"; "1.22.3"; ".3"].
Proof. reflexivity. Qed.

Example wrong_family_is_rejected :
  markedconn.getOriginalDestInternal (H := sample.runtime)
    (markedconn.mkPassFD [12] None) true sample.confused_kernel
  = (None, 0, Some "invalid address family. Expected AF_INET").
Proof. reflexivity. Qed.

Example ipv6_destination :
  markedconn.getOriginalDestInternal (H := sample.runtime)
    (markedconn.mkPassFD [12] None) false sample.kernel
  = (Some (vec_to_list (markedconn.ip6 sample.reply6)), 443, None).
Proof. reflexivity. Qed.

Example redirected_connection_is_wrapped :
  markedconn.Accept (H := sample.runtime) sample.redirected_listener ∅
  = ((Some (markedconn.mkProxiedConnection
              (Some [Byte.x0a; Byte.x01; Byte.x02; Byte.x03]) 8080
              sample.redirected_conn), None),
     {[8%nat]} ∪ ∅).
Proof. reflexivity. Qed.

(** ** More about the cached store *)

Lemma insert_at_beyond (pos : Z) (rule : string) (l : list string) :
  Go.len l < pos -> insert_at pos rule l = l ++ [rule].
Proof.
  intros Hpos. unfold insert_at.
  destruct (pos =? 1) eqn:H1.
  - apply Z.eqb_eq in H1 as ->.
    destruct l; [done | unfold Go.len in Hpos; simpl in Hpos; lia].
  - by rewrite (proj2 (Z.ltb_lt _ _) Hpos).
Qed.

Lemma remove_first_insert_at (pos : Z) (rule : string) (l : list string) :
  1 <= pos -> rule ∉ take (Z.to_nat (pos - 1)) l ->
  remove_first rule (insert_at pos rule l) = l.
Proof.
  intros Hpos Hfront. unfold insert_at.
  destruct (pos =? 1) eqn:H1; [simpl; by rewrite String.eqb_refl|].
  destruct (Go.len l <? pos) eqn:H2.
  - apply Z.ltb_lt in H2. unfold Go.len in H2.
    rewrite take_ge in Hfront by lia.
    rewrite (remove_first_split rule l []) by done. by rewrite app_nil_r.
  - rewrite remove_first_split by done. apply take_drop.
Qed.

Lemma remove_first_app (rule : string) (l k : list string) :
  rule ∈ l -> remove_first rule (l ++ k) = remove_first rule l ++ k.
Proof.
  induction l as [|r l IH]; [by intros ?%elem_of_nil|].
  intros Hin. simpl. destruct (String.eqb_spec rule r) as [->|Hne]; [done|].
  apply elem_of_cons in Hin as [->|Hin]; [done|]. by rewrite IH.
Qed.

Section MoreStoreFacts.

Context {K : Type} `{BaseIPTables K}.
Implicit Types (b : BatchProvider K) (table chain : string).

(** [Append] on a batched table. *)
Lemma Append_batched table chain rulespec b :
  is_Some (batchTables b !! table) ->
  Append table chain rulespec b =
  (Returned nil_error,
   set_rules (put_chain (rules b) table chain
                (chain_of (rules b) table chain ++ [Go.Join rulespec " "])) b).
Proof.
  intros Hb. unfold Append.
  unfold bind at 1. rewrite batched_true by done. simpl.
  rewrite ensure_chain_run. unfold bind. by rewrite store_chain_put.
Qed.

(** [ClearChain] on a batched table. *)
Lemma ClearChain_batched table chain b :
  is_Some (batchTables b !! table) ->
  ClearChain table chain b =
  (Returned nil_error,
   match rules b !! table ≫= (.!! chain) with
   | Some _ => set_rules (put_chain (rules b) table chain []) b
   | None => b
   end).
Proof.
  intros Hb. unfold ClearChain.
  unfold bind at 1. rewrite batched_true by done. simpl.
  unfold bind, has_table, has_chain, store_chain, ret, put_chain.
  destruct (rules b !! table) as [chains|] eqn:Ht; simpl; [|done].
  rewrite Ht. simpl.
  destruct (chains !! chain) as [cur|] eqn:Hc; simpl; [|done].
  by rewrite Ht.
Qed.

(** [DeleteChain] on a batched table. *)
Lemma DeleteChain_batched table chain b :
  is_Some (batchTables b !! table) ->
  DeleteChain table chain b =
  (Returned nil_error,
   match rules b !! table with
   | Some chains => set_rules (<[table := delete chain chains]> (rules b)) b
   | None => b
   end).
Proof.
  intros Hb. unfold DeleteChain.
  unfold bind at 1. rewrite batched_true by done. simpl.
  unfold bind, has_table, delete_chain, ret.
  destruct (rules b !! table) as [chains|] eqn:Ht; simpl; [|done].
  by rewrite Ht.
Qed.

End MoreStoreFacts.

(** X1. On a batched table, [Append] returns no error and puts the joined
    rule behind the rules that the chain holds, creating the table and the
    chain when they are missing; no other chain changes. *)
Theorem Append_adds_last {K : Type} `{BaseIPTables K}
    (b : BatchProvider K) (table chain : string) (rulespec : list string) :
  is_Some (batchTables b !! table) ->
  exists b',
    Append table chain rulespec b = (Returned nil_error, b') /\
    chain_of (rules b') table chain
    = chain_of (rules b) table chain ++ [Go.Join rulespec " "] /\
    is_Some (rules b' !! table ≫= (.!! chain)) /\
    forall table' chain',
      (table', chain') <> (table, chain) ->
      chain_of (rules b') table' chain' = chain_of (rules b) table' chain'.
Proof.
  intros Hb. eexists. split; [by apply Append_batched|]. simpl.
  split; [apply chain_of_put|]. split.
  - unfold put_chain. rewrite lookup_insert_eq. simpl. rewrite lookup_insert_eq. by eexists.
  - intros table' chain' Hne. by apply chain_of_put_other.
Qed.

Lemma Append_adds_last_witness :
  is_Some (batchTables abc_provider !! "filter") /\
  exists b',
    Append "filter" "OUTPUT" ["-j"; "DROP"] abc_provider = (Returned nil_error, b') /\
    chain_of (rules b') "filter" "OUTPUT"
    = chain_of (rules abc_provider) "filter" "OUTPUT" ++ [Go.Join ["-j"; "DROP"] " "] /\
    is_Some (rules b' !! "filter" ≫= (.!! "OUTPUT")) /\
    forall table' chain',
      (table', chain') <> ("filter", "OUTPUT") ->
      chain_of (rules b') table' chain' = chain_of (rules abc_provider) table' chain'.
Proof.
  assert (Hb : is_Some (batchTables abc_provider !! "filter")) by (exists true; reflexivity).
  split; [exact Hb|].
  exact (Append_adds_last abc_provider "filter" "OUTPUT" ["-j"; "DROP"] Hb).
Defined.

(** X2. On a batched table, [Insert] at any position beyond the length of
    the chain is [Append]: same result, same provider afterwards. *)
Theorem Insert_beyond_length_is_Append {K : Type} `{BaseIPTables K}
    (b : BatchProvider K) (table chain : string) (pos : Z) (rulespec : list string) :
  is_Some (batchTables b !! table) -> Go.is_int pos ->
  Go.len (chain_of (rules b) table chain) < pos ->
  Insert table chain pos rulespec b = Append table chain rulespec b.
Proof.
  intros Hb Hint Hpos.
  assert (0 <= Go.len (chain_of (rules b) table chain)) by (unfold Go.len; lia).
  rewrite Insert_batched, Append_batched by (done || lia).
  by rewrite insert_at_beyond.
Qed.

Lemma Insert_beyond_length_is_Append_witness :
  is_Some (batchTables abc_provider !! "filter") /\ Go.is_int 9 /\
  Go.len (chain_of (rules abc_provider) "filter" "INPUT") < 9 /\
  Insert "filter" "INPUT" 9 ["x"] abc_provider = Append "filter" "INPUT" ["x"] abc_provider.
Proof.
  assert (Hb : is_Some (batchTables abc_provider !! "filter")) by (exists true; reflexivity).
  assert (Hint : Go.is_int 9) by (unfold Go.is_int, Go.int_min, Go.int_max; lia).
  assert (Hpos : Go.len (chain_of (rules abc_provider) "filter" "INPUT") < 9)
    by (vm_compute; reflexivity).
  split; [exact Hb|]. split; [exact Hint|]. split; [exact Hpos|].
  exact (Insert_beyond_length_is_Append abc_provider "filter" "INPUT" 9 ["x"] Hb Hint Hpos).
Defined.

(** X3. On a batched table, [Insert] at a position from 1 on followed by
    [Delete] of the same rule specification gives the chain its old list
    back, provided no equal rule stands in front of the insertion point
    (which is always so for position 1).  The chain exists afterwards even
    when it did not before. *)
Theorem Delete_undoes_Insert {K : Type} `{BaseIPTables K}
    (b : BatchProvider K) (table chain : string) (pos : Z) (rulespec : list string) :
  is_Some (batchTables b !! table) -> Go.is_int pos -> 1 <= pos ->
  let cur := chain_of (rules b) table chain in
  Go.Join rulespec " " ∉ take (Z.to_nat (pos - 1)) cur ->
  bind (Insert table chain pos rulespec) (fun _ => Delete table chain rulespec) b =
  (Returned nil_error, set_rules (put_chain (rules b) table chain cur) b).
Proof.
  intros Hb Hint Hpos cur Hfront. unfold bind.
  rewrite Insert_batched by done.
  rewrite Delete_batched by done. simpl.
  unfold put_chain at 1. rewrite lookup_insert_eq. simpl. rewrite lookup_insert_eq.
  fold cur. rewrite remove_first_insert_at by done.
  by rewrite put_put, set_rules_twice.
Qed.

Lemma Delete_undoes_Insert_witness :
  is_Some (batchTables abc_provider !! "filter") /\ Go.is_int 1 /\ 1 <= 1 /\
  (Go.Join ["b"] " "
   ∉ take (Z.to_nat (1 - 1)) (chain_of (rules abc_provider) "filter" "INPUT")) /\
  bind (Insert "filter" "INPUT" 1 ["b"]) (fun _ => Delete "filter" "INPUT" ["b"])
    abc_provider =
  (Returned nil_error,
   set_rules (put_chain (rules abc_provider) "filter" "INPUT"
                (chain_of (rules abc_provider) "filter" "INPUT")) abc_provider).
Proof.
  assert (Hb : is_Some (batchTables abc_provider !! "filter")) by (exists true; reflexivity).
  assert (Hint : Go.is_int 1) by (unfold Go.is_int, Go.int_min, Go.int_max; lia).
  assert (Hpos : 1 <= 1) by lia.
  assert (Hfront : Go.Join ["b"] " "
                   ∉ take (Z.to_nat (1 - 1)) (chain_of (rules abc_provider) "filter" "INPUT"))
    by (simpl; apply not_elem_of_nil).
  split; [exact Hb|]. split; [exact Hint|]. split; [exact Hpos|]. split; [exact Hfront|].
  exact (Delete_undoes_Insert abc_provider "filter" "INPUT" 1 ["b"] Hb Hint Hpos Hfront).
Defined.

Lemma lookup_put_other (r : gmap string (gmap string (list string)))
    (table chain : string) (l : list string) (table' chain' : string) :
  (table', chain') <> (table, chain) ->
  put_chain r table chain l !! table' ≫= (.!! chain') = r !! table' ≫= (.!! chain').
Proof.
  intros Hne. unfold put_chain.
  destruct (decide (table = table')) as [<-|Ht].
  - rewrite lookup_insert_eq. simpl.
    rewrite lookup_insert_ne by congruence.
    destruct (r !! table); simpl; [done | by rewrite lookup_empty].
  - by rewrite lookup_insert_ne.
Qed.

(** X4. On a batched table, [Append] followed by [Delete] of the same rule
    specification gives the chain its old list back when the list held no
    equal rule; when it did, the first of the old equal rules is taken out
    and the appended one stays at the end. *)
Theorem Delete_after_Append {K : Type} `{BaseIPTables K}
    (b : BatchProvider K) (table chain : string) (rulespec : list string) :
  is_Some (batchTables b !! table) ->
  let cur := chain_of (rules b) table chain in
  let rule := Go.Join rulespec " " in
  exists b',
    bind (Append table chain rulespec) (fun _ => Delete table chain rulespec) b
    = (Returned nil_error, b') /\
    (rule ∉ cur -> chain_of (rules b') table chain = cur) /\
    (forall front back,
       cur = front ++ rule :: back -> rule ∉ front ->
       chain_of (rules b') table chain = front ++ back ++ [rule]).
Proof.
  intros Hb cur rule. eexists. split.
  { unfold bind. rewrite Append_batched by done. rewrite Delete_batched by done.
    simpl. unfold put_chain at 1. rewrite lookup_insert_eq. simpl.
    rewrite lookup_insert_eq. reflexivity. }
  simpl. rewrite chain_of_put. fold cur rule. split.
  - intros Hnotin. rewrite (remove_first_split rule cur []) by done. apply app_nil_r.
  - intros front back Hcur Hfront. rewrite Hcur.
    rewrite remove_first_app by (apply elem_of_app; right; apply elem_of_cons; by left).
    rewrite remove_first_split by done. by rewrite <- app_assoc.
Qed.

Lemma Delete_after_Append_witness :
  is_Some (batchTables abc_provider !! "filter") /\
  exists b',
    bind (Append "filter" "INPUT" ["b"]) (fun _ => Delete "filter" "INPUT" ["b"])
      abc_provider
    = (Returned nil_error, b') /\
    chain_of (rules b') "filter" "INPUT" = ["a"] ++ ["c"] ++ ["b"].
Proof.
  assert (Hb : is_Some (batchTables abc_provider !! "filter")) by (exists true; reflexivity).
  split; [exact Hb|].
  destruct (Delete_after_Append abc_provider "filter" "INPUT" ["b"] Hb)
    as (b' & Hrun & _ & Hdup).
  exists b'. split; [exact Hrun|].
  apply (Hdup ["a"] ["c"] eq_refl).
  intros Hin. apply list_elem_of_In in Hin. simpl in Hin.
  destruct Hin as [Heq | []]. discriminate Heq.
Defined.

(** X5. On a batched table, [ClearChain] returns no error; it empties the
    list of a chain that exists and touches no other chain; a chain that
    does not exist is not created, the provider stays as it is. *)
Theorem ClearChain_empties_existing_chain {K : Type} `{BaseIPTables K}
    (b : BatchProvider K) (table chain : string) :
  is_Some (batchTables b !! table) ->
  exists b',
    ClearChain table chain b = (Returned nil_error, b') /\
    (rules b !! table ≫= (.!! chain) = None -> b' = b) /\
    (is_Some (rules b !! table ≫= (.!! chain)) ->
     rules b' !! table ≫= (.!! chain) = Some []) /\
    forall table' chain',
      (table', chain') <> (table, chain) ->
      rules b' !! table' ≫= (.!! chain') = rules b !! table' ≫= (.!! chain').
Proof.
  intros Hb. eexists. split; [by apply ClearChain_batched|].
  destruct (rules b !! table ≫= (.!! chain)) as [cur|] eqn:Hc.
  - split; [done|]. split.
    + intros _. simpl. unfold put_chain. rewrite lookup_insert_eq. simpl.
      by rewrite lookup_insert_eq.
    + intros table' chain' Hne. simpl. by apply lookup_put_other.
  - split; [done|]. split; [by intros [? ?]|done].
Qed.

Lemma ClearChain_empties_existing_chain_witness :
  is_Some (batchTables abc_provider !! "filter") /\
  exists b',
    ClearChain "filter" "OUTPUT" abc_provider = (Returned nil_error, b') /\
    b' = abc_provider.
Proof.
  assert (Hb : is_Some (batchTables abc_provider !! "filter")) by (exists true; reflexivity).
  split; [exact Hb|].
  destruct (ClearChain_empties_existing_chain abc_provider "filter" "OUTPUT" Hb)
    as (b' & Hrun & Hmissing & _).
  exists b'. split; [exact Hrun|]. apply Hmissing. reflexivity.
Defined.

(** X6. On a batched table, [DeleteChain] returns no error and takes the
    entry of the chain out of the table; the entry of the table itself
    stays, also when this was its last chain, and is not created when it
    is missing; no other chain changes, and when the chain was missing the
    provider stays as it is. *)
Theorem DeleteChain_removes_entry {K : Type} `{BaseIPTables K}
    (b : BatchProvider K) (table chain : string) :
  is_Some (batchTables b !! table) ->
  exists b',
    DeleteChain table chain b = (Returned nil_error, b') /\
    rules b' !! table ≫= (.!! chain) = None /\
    (is_Some (rules b' !! table) <-> is_Some (rules b !! table)) /\
    (rules b !! table ≫= (.!! chain) = None -> b' = b) /\
    forall table' chain',
      (table', chain') <> (table, chain) ->
      rules b' !! table' ≫= (.!! chain') = rules b !! table' ≫= (.!! chain').
Proof.
  intros Hb. eexists. split; [by apply DeleteChain_batched|].
  destruct (rules b !! table) as [chains|] eqn:Ht; simpl.
  - rewrite lookup_insert_eq. simpl. rewrite lookup_delete_eq.
    split; [done|]. split; [split; intros _; by eexists|]. split.
    + intros Hc. rewrite delete_id by done. rewrite insert_id by done.
      apply set_rules_same.
    + intros table' chain' Hne.
      destruct (decide (table = table')) as [<-|Hne'].
      * rewrite lookup_insert_eq, Ht. simpl. rewrite lookup_delete_ne by congruence. done.
      * by rewrite lookup_insert_ne.
  - rewrite Ht. simpl. done.
Qed.

Lemma DeleteChain_removes_entry_witness :
  is_Some (batchTables abc_provider !! "filter") /\
  exists b',
    DeleteChain "filter" "INPUT" abc_provider = (Returned nil_error, b') /\
    rules b' !! "filter" ≫= (.!! "INPUT") = None /\
    (is_Some (rules b' !! "filter") <-> is_Some (rules abc_provider !! "filter")).
Proof.
  assert (Hb : is_Some (batchTables abc_provider !! "filter")) by (exists true; reflexivity).
  split; [exact Hb|].
  destruct (DeleteChain_removes_entry abc_provider "filter" "INPUT" Hb)
    as (b' & Hrun & Hgone & Htable & _).
  exists b'. split; [exact Hrun|]. split; [exact Hgone | exact Htable].
Defined.

(** ** What every sequence of calls keeps *)

Section Keeps.

Context {K : Type} `{BaseIPTables K}.

(** A property that does not look at the passthrough, that survives every
    change inside a table that is cached, and every change of a table that
    is batched. *)
Variable P : BatchProvider K -> Prop.
Hypothesis P_ipt : forall k b, P b -> P (set_ipt k b).
Hypothesis P_update : forall table chains chains' b,
  P b -> rules b !! table = Some chains ->
  P (set_rules (<[table := chains']> (rules b)) b).
Hypothesis P_create : forall table chains' b,
  P b -> is_Some (batchTables b !! table) ->
  P (set_rules (<[table := chains']> (rules b)) b).

Lemma keeps_ret {A : Type} (a : A) : keeps P (ret a).
Proof. by intros b HP. Qed.

Lemma keeps_panic {A : Type} (reason : string) : keeps P (panic (A:=A) reason).
Proof. by intros b HP. Qed.

Lemma keeps_bind {A B : Type} (m : M K A) (f : A -> M K B) :
  keeps P m -> (forall a, keeps P (f a)) -> keeps P (bind m f).
Proof.
  intros Hm Hf b HP. unfold bind. specialize (Hm b HP).
  destruct (m b) as [[a|reason] b']; simpl in *; [by apply Hf | done].
Qed.

Lemma keeps_forward {A : Type} (op : K -> A * K) : keeps P (forward op).
Proof.
  intros b HP. unfold forward. destruct (op (ipt b)) as [a k]. simpl. by apply P_ipt.
Qed.

Lemma keeps_has_table table : keeps P (has_table table).
Proof. by intros b HP. Qed.

Lemma keeps_has_chain table chain : keeps P (has_chain table chain).
Proof. by intros b HP. Qed.

Lemma keeps_load_chain table chain : keeps P (load_chain table chain).
Proof. by intros b HP. Qed.

Lemma keeps_store_chain table chain l : keeps P (store_chain table chain l).
Proof.
  intros b HP. unfold store_chain.
  destruct (rules b !! table) as [chains|] eqn:Ht; simpl; [by eapply P_update | done].
Qed.

Lemma keeps_delete_chain table chain : keeps P (delete_chain table chain).
Proof.
  intros b HP. unfold delete_chain.
  destruct (rules b !! table) as [chains|] eqn:Ht; simpl; [by eapply P_update | done].
Qed.

Lemma keeps_when (c : bool) (m : M K unit) : keeps P m -> keeps P (when c m).
Proof. intros Hm. destruct c; [done | apply keeps_ret]. Qed.

Lemma keeps_reslice (s : list string) (lo hi : Z) : keeps P (reslice s lo hi).
Proof. unfold reslice. destruct (Go.slice s lo hi); [apply keeps_ret | apply keeps_panic]. Qed.

Local Ltac keeps_step :=
  first [ apply keeps_ret | apply keeps_panic | apply keeps_forward
        | apply keeps_has_table | apply keeps_has_chain | apply keeps_load_chain
        | apply keeps_store_chain | apply keeps_delete_chain | apply keeps_reslice
        | apply keeps_when | (apply keeps_bind; [|intros ?]) ].

Lemma keeps_delete_at table chain index : keeps P (delete_at table chain index).
Proof.
  unfold delete_at. apply keeps_bind; [keeps_step|]. intros s.
  repeat case_match; repeat keeps_step.
Qed.

Lemma keeps_delete_loop table chain rule index rest :
  keeps P (delete_loop table chain rule index rest).
Proof.
  revert index. induction rest as [|r rest IH]; intros index; simpl.
  - apply keeps_ret.
  - destruct (String.eqb rule r); [apply keeps_delete_at | apply IH].
Qed.

Lemma keeps_insert_shift table chain pos rule : keeps P (insert_shift table chain pos rule).
Proof.
  unfold insert_shift. repeat keeps_step.
  repeat case_match; repeat keeps_step.
  repeat case_match; repeat keeps_step.
Qed.

(** The routing on [batchTables] that every mutating method starts with. *)
Lemma keeps_routed {A : Type} table (op : K -> A * K) (rest : M K A) :
  (forall b, P b -> is_Some (batchTables b !! table) -> P (rest b).2) ->
  keeps P (ok <~ batched table ;; if negb ok then forward op else rest).
Proof.
  intros Hrest b HP. unfold bind, batched.
  destruct (bool_decide (is_Some (batchTables b !! table))) eqn:Hb; simpl.
  - apply bool_decide_eq_true in Hb. by apply Hrest.
  - by apply keeps_forward.
Qed.

(** The creation of a table is reached for batched tables only. *)
Lemma keeps_make_table table b :
  P b -> is_Some (batchTables b !! table) -> P (make_table table b).2.
Proof. intros HP Hb. unfold make_table. simpl. by apply P_create. Qed.

Lemma keeps_ensure_table {A : Type} table (rest : M K A) b :
  keeps P rest -> P b -> is_Some (batchTables b !! table) ->
  P ((ok <~ has_table table ;; when (negb ok) (make_table table) ;;; rest) b).2.
Proof.
  intros Hrest HP Hb. unfold bind at 1. unfold has_table. simpl.
  unfold bind. destruct (negb _); simpl.
  - apply Hrest. by apply keeps_make_table.
  - by apply Hrest.
Qed.

Lemma keeps_after (m : method) : forall b, P b -> P (after m b).
Proof.
  destruct m; simpl; intros b HP.
  - apply (keeps_routed table); [|done]. intros b' HP' Hb.
    apply keeps_ensure_table; [|done..]. repeat keeps_step.
  - apply (keeps_routed table); [|done]. intros b' HP' Hb.
    apply keeps_ensure_table; [|done..]. repeat keeps_step.
    repeat case_match; first [apply keeps_store_chain | apply keeps_insert_shift].
  - apply (keeps_routed table); [|done]. intros b' HP' _. revert b' HP'.
    change (keeps P (ok <~ has_table table ;;
                     if negb ok then ret nil_error else
                     ok <~ has_chain table chain ;;
                     if negb ok then ret nil_error else
                     let rule := Go.Join rulespec " " in
                     cur <~ load_chain table chain ;;
                     delete_loop table chain rule 0 cur ;;; ret nil_error)).
    repeat keeps_step. case_match; repeat keeps_step.
    case_match; repeat keeps_step. apply keeps_delete_loop.
  - by apply keeps_forward.
  - apply (keeps_routed table); [|done]. intros b' HP' _. revert b' HP'.
    change (keeps P (ok <~ has_table table ;;
                     if negb ok then ret nil_error else
                     ok <~ has_chain table chain ;;
                     if negb ok then ret nil_error else
                     store_chain table chain [] ;;; ret nil_error)).
    repeat keeps_step. case_match; repeat keeps_step. case_match; repeat keeps_step.
  - apply (keeps_routed table); [|done]. intros b' HP' _. revert b' HP'.
    change (keeps P (ok <~ has_table table ;;
                     if negb ok then ret nil_error else
                     delete_chain table chain ;;; ret nil_error)).
    repeat keeps_step. case_match; repeat keeps_step.
  - apply (keeps_routed table); [|done]. intros b' HP' Hb.
    apply keeps_ensure_table; [|done..]. repeat keeps_step.
  - unfold Commit. repeat case_match; done.
  - done.
Qed.

Lemma keeps_after_all (ms : list method) : forall b, P b -> P (after_all ms b).
Proof.
  unfold after_all. induction ms as [|m ms IH]; simpl; [done|].
  intros b HP. apply IH. by apply keeps_after.
Qed.

End Keeps.

(** Every call keeps the configuration and caches batched tables only. *)
Lemma after_all_configured {K : Type} `{BaseIPTables K} (bt : gmap string bool)
    (cf : string -> error) (rc : string) (ms : list method) (b : BatchProvider K) :
  configured bt cf rc b -> configured bt cf rc (after_all ms b).
Proof.
  apply (keeps_after_all (configured bt cf rc)); unfold configured.
  - intros k b' HP. done.
  - intros table chains chains' b' (Hbt & Hcf & Hrc & Hdom) Ht. simpl.
    split; [done|]. split; [done|]. split; [done|]. intros t.
    destruct (decide (table = t)) as [<-|Hne].
    + intros _. apply Hdom. by rewrite Ht.
    + rewrite lookup_insert_ne by done. apply Hdom.
  - intros table chains' b' (Hbt & Hcf & Hrc & Hdom) Hb. simpl.
    split; [done|]. split; [done|]. split; [done|]. intros t.
    destruct (decide (table = t)) as [<-|Hne]; [by rewrite <- Hbt|].
    rewrite lookup_insert_ne by done. apply Hdom.
Qed.

(** X7. No call of a method, whether it returns or panics, changes which
    tables are batched, the commit function or the command of the provider:
    after every sequence of calls they are what they were. *)
Theorem calls_keep_configuration {K : Type} `{BaseIPTables K}
    (b : BatchProvider K) (ms : list method) :
  batchTables (after_all ms b) = batchTables b /\
  commitFunc (after_all ms b) = commitFunc b /\
  restoreCmd (after_all ms b) = restoreCmd b.
Proof.
  apply (keeps_after_all
           (fun b' => batchTables b' = batchTables b /\ commitFunc b' = commitFunc b /\
                      restoreCmd b' = restoreCmd b)); done.
Qed.

(** X8. The provider caches batched tables only: when every table of the
    store is batched, this is so after every sequence of calls. *)
Theorem calls_cache_batched_tables_only {K : Type} `{BaseIPTables K}
    (b : BatchProvider K) (ms : list method) :
  (forall t, is_Some (rules b !! t) -> is_Some (batchTables b !! t)) ->
  forall t, is_Some (rules (after_all ms b) !! t) ->
            is_Some (batchTables (after_all ms b) !! t).
Proof.
  intros Hdom t Hcached.
  destruct (after_all_configured (batchTables b) (commitFunc b) (restoreCmd b) ms b)
    as (Hbatch & _ & _ & Hdom'); [done|].
  rewrite Hbatch. by apply Hdom'.
Qed.

Lemma calls_cache_batched_tables_only_witness :
  (forall t, is_Some (rules abc_provider !! t) -> is_Some (batchTables abc_provider !! t)) /\
  forall t,
    is_Some (rules (after_all [DoNewChain "filter" "OUTPUT"; DoInsert "nat" "PREROUTING" 0 ["x"];
                               DoAppend "raw" "OUTPUT" ["-j"; "DROP"]] abc_provider) !! t) ->
    is_Some (batchTables (after_all [DoNewChain "filter" "OUTPUT";
                                     DoInsert "nat" "PREROUTING" 0 ["x"];
                                     DoAppend "raw" "OUTPUT" ["-j"; "DROP"]] abc_provider) !! t).
Proof.
  assert (Hdom : forall t, is_Some (rules abc_provider !! t) ->
                           is_Some (batchTables abc_provider !! t)).
  { intros t. simpl. destruct (decide (t = "filter")) as [->|Hne].
    - intros _. by exists true.
    - rewrite lookup_singleton_ne by done. by intros [? ?]. }
  split; [exact Hdom|].
  exact (calls_cache_batched_tables_only abc_provider _ Hdom).
Defined.

Lemma after_direct {K : Type} `{BaseIPTables K} (m : method) (b : BatchProvider K) :
  batchTables b = ∅ -> rules (after m b) = rules b /\ batchTables (after m b) = ∅.
Proof.
  intros Hb.
  assert (Hnone : forall table, batchTables b !! table = None)
    by (intros table; by rewrite Hb, lookup_empty).
  destruct m; simpl;
    unfold Append, Insert, Delete, ClearChain, DeleteChain, NewChain, ListChains;
    rewrite ?forward_direct by done; simpl; try done.
  - unfold forward. by destruct (ipt_ListChains table (ipt b)).
  - unfold Commit. rewrite Hb. rewrite decide_True by (by rewrite map_size_empty). done.
Qed.

Lemma after_all_direct {K : Type} `{BaseIPTables K} (ms : list method)
    (b : BatchProvider K) :
  batchTables b = ∅ ->
  rules (after_all ms b) = rules b /\ batchTables (after_all ms b) = ∅.
Proof.
  unfold after_all. revert b. induction ms as [|m ms IH]; intros b Hb; simpl; [done|].
  destruct (after_direct m b Hb) as [Hrules Hbatch].
  destruct (IH _ Hbatch) as [Hrules' Hbatch']. split; [congruence | done].
Qed.

(** X9. A provider without batched tables never caches anything: after every
    sequence of calls the store is the one from before, and [Commit] returns
    no error without running the commit function, whatever that function
    would answer. *)
Theorem direct_mode_never_caches {K : Type} `{BaseIPTables K}
    (b : BatchProvider K) (ms : list method) (order : list table_visit) :
  batchTables b = ∅ ->
  rules (after_all ms b) = rules b /\
  Commit order (after_all ms b) = (Returned nil_error, after_all ms b).
Proof.
  intros Hb. destruct (after_all_direct ms b Hb) as [Hrules Hbatch].
  split; [done|].
  unfold Commit. rewrite Hbatch. by rewrite decide_True by (by rewrite map_size_empty).
Qed.

Lemma direct_mode_never_caches_witness :
  batchTables refusing_provider = ∅ /\
  rules (after_all [DoAppend "nat" "PREROUTING" ["-p"; "tcp"]; DoNewChain "nat" "X"]
           refusing_provider) = rules refusing_provider /\
  Commit [] (after_all [DoAppend "nat" "PREROUTING" ["-p"; "tcp"]; DoNewChain "nat" "X"]
               refusing_provider)
  = (Returned nil_error,
     after_all [DoAppend "nat" "PREROUTING" ["-p"; "tcp"]; DoNewChain "nat" "X"]
       refusing_provider).
Proof.
  split; [reflexivity|].
  exact (direct_mode_never_caches refusing_provider _ [] eq_refl).
Defined.

(** ** The constructors *)

Lemma mark_tables_lookup (batchTables : list string) (m : gmap string bool) (t : string) :
  is_Some (mark_tables batchTables m !! t) <-> t ∈ batchTables \/ is_Some (m !! t).
Proof.
  revert m. induction batchTables as [|t' rest IH]; intros m; simpl.
  - split; [by right | intros [?%elem_of_nil | ?]; done].
  - rewrite IH, elem_of_cons. destruct (decide (t' = t)) as [->|Hne].
    + rewrite lookup_insert_eq. split; [by left; left | by intros; right; eexists].
    + rewrite lookup_insert_ne by done. split; [intros [|]; auto | intros [[->|]|]; auto].
      done.
Qed.

(** X10. A provider made by [NewCustomBatchProvider] starts with an empty
    store and batches exactly the tables of the list it was given; after
    every sequence of calls it still batches exactly these, and its store
    holds none but these. *)
Theorem NewCustomBatchProvider_batches_listed {K : Type} `{BaseIPTables K}
    (ipt0 : K) (commit : string -> error) (batchTables0 : list string)
    (ms : list method) (t : string) :
  let b := NewCustomBatchProvider ipt0 commit batchTables0 in
  rules b = ∅ /\
  (is_Some (batchTables (after_all ms b) !! t) <-> t ∈ batchTables0) /\
  (is_Some (rules (after_all ms b) !! t) -> t ∈ batchTables0).
Proof.
  intros b. split; [done|].
  destruct (after_all_configured (batchTables b) (commitFunc b) (restoreCmd b) ms b)
    as (Hbatch & _ & _ & Hdom).
  { split; [done|]. split; [done|]. split; [done|].
    intros t'. simpl. rewrite lookup_empty. by intros [? ?]. }
  assert (Hlisted : is_Some (batchTables b !! t) <-> t ∈ batchTables0).
  { simpl. rewrite mark_tables_lookup, lookup_empty.
    split; [intros [|[? ?]]; done | by left]. }
  rewrite Hbatch. split; [done|]. intros Hcached. apply Hlisted. by apply Hdom.
Qed.

(** X11. When the probe of the restore command answers no, the provider
    that [NewGoIPTablesProviderV4] or [NewGoIPTablesProviderV6] builds
    batches no table, whatever tables were asked for: after every sequence
    of calls its store is empty and [Commit] returns no error without
    running the restore command. *)
Theorem old_iptables_gives_direct_provider {K V : Type} `{BaseIPTables K} `{VersionLib V}
    (run : Exec) (ipt4 ipt6 : result K) (batchTables0 : list string)
    (b : BatchProvider K) (ms : list method) (order : list table_visit) :
  (NewGoIPTablesProviderV4 run ipt4 batchTables0 = Ok b /\ probe run restoreCmdV4 = false) \/
  (NewGoIPTablesProviderV6 run ipt6 batchTables0 = Ok b /\ probe run restoreCmdV6 = false) ->
  batchTables b = ∅ /\
  rules (after_all ms b) = ∅ /\
  Commit order (after_all ms b) = (Returned nil_error, after_all ms b).
Proof.
  intros Hnew.
  assert (Hb : batchTables b = ∅ /\ rules b = ∅).
  { destruct Hnew as [[Hnew Hprobe] | [Hnew Hprobe]].
    - unfold NewGoIPTablesProviderV4 in Hnew. destruct ipt4; [|done].
      rewrite Hprobe in Hnew. by simplify_eq.
    - unfold NewGoIPTablesProviderV6 in Hnew. destruct ipt6; [|done].
      rewrite Hprobe in Hnew. by simplify_eq. }
  destruct Hb as [Hbatch Hrules]. split; [done|].
  destruct (after_all_direct ms b Hbatch) as [Hsame Hbatch'].
  split; [congruence|].
  unfold Commit. rewrite Hbatch'. by rewrite decide_True by (by rewrite map_size_empty).
Qed.

Lemma old_iptables_gives_direct_provider_witness :
  ((@NewGoIPTablesProviderV4 unit (list Z) dotted.lib no_restore_command (Ok tt) ["nat"]
    = Ok (mkBatchProvider tt ∅ ∅ (restore no_restore_command restoreCmdV4) restoreCmdV4) /\
    @probe (list Z) dotted.lib no_restore_command restoreCmdV4 = false) \/
   (@NewGoIPTablesProviderV6 unit (list Z) dotted.lib no_restore_command (Ok tt) ["nat"]
    = Ok (mkBatchProvider tt ∅ ∅ (restore no_restore_command restoreCmdV4) restoreCmdV4) /\
    @probe (list Z) dotted.lib no_restore_command restoreCmdV6 = false)) /\
  rules (after_all [DoAppend "nat" "PREROUTING" ["-p"; "tcp"]]
           (mkBatchProvider tt ∅ ∅ (restore no_restore_command restoreCmdV4) restoreCmdV4))
  = ∅.
Proof.
  assert (Hnew :
    (@NewGoIPTablesProviderV4 unit (list Z) dotted.lib no_restore_command (Ok tt) ["nat"]
     = Ok (mkBatchProvider tt ∅ ∅ (restore no_restore_command restoreCmdV4) restoreCmdV4) /\
     @probe (list Z) dotted.lib no_restore_command restoreCmdV4 = false) \/
    (@NewGoIPTablesProviderV6 unit (list Z) dotted.lib no_restore_command (Ok tt) ["nat"]
     = Ok (mkBatchProvider tt ∅ ∅ (restore no_restore_command restoreCmdV4) restoreCmdV4) /\
     @probe (list Z) dotted.lib no_restore_command restoreCmdV6 = false))
    by (left; split; reflexivity).
  split; [exact Hnew|].
  exact (proj1 (proj2 (@old_iptables_gives_direct_provider unit (list Z) unit_ipt dotted.lib
                         no_restore_command (Ok tt) (Ok tt) ["nat"] _
                         [DoAppend "nat" "PREROUTING" ["-p"; "tcp"]] [] Hnew))).
Defined.

(** ** More about the buffer of [Commit] *)

Lemma string_app_assoc (a b c : string) : (a +:+ b) +:+ c = a +:+ b +:+ c.
Proof.
  induction a as [|x a IH]; [done|].
  change (String x ((a +:+ b) +:+ c) = String x (a +:+ b +:+ c)). by rewrite IH.
Qed.

Lemma string_app_nil_r (a : string) : a +:+ EmptyString = a.
Proof.
  induction a as [|x a IH]; [done|].
  change (String x (a +:+ EmptyString) = String x a). by rewrite IH.
Qed.

Lemma join_lines_app (xs ys : list string) :
  join_lines (xs ++ ys) = join_lines xs +:+ join_lines ys.
Proof.
  induction xs as [|x xs IH]; simpl; [done|]. by rewrite IH, string_app_assoc.
Qed.

(** A loop that prints one line per element appends the lines in order. *)
Lemma for_each_lines {A : Type} (line : A -> string) (xs : list A) (buf : string) :
  for_each xs (fun x buf => Fprintf buf (line x)) buf
  = (buf +:+ join_lines (line <$> xs), None).
Proof.
  revert buf. induction xs as [|x xs IH]; intros buf; simpl.
  - by rewrite string_app_nil_r.
  - unfold Fprintf at 1. rewrite IH. by rewrite string_app_assoc.
Qed.

Lemma for_each_fill (r : gmap string (gmap string (list string))) (table : string)
    (fill : list string) (buf : string) :
  for_each fill
    (fun chain =>
       for_each (default [] (r !! table ≫= (.!! chain)))
         (fun rule buf => Fprintf buf ("-A " +:+ chain +:+ " " +:+ rule +:+ nl))) buf
  = (buf +:+ join_lines (fill_lines r table fill), None).
Proof.
  revert buf. induction fill as [|chain fill IH]; intros buf; simpl.
  - by rewrite string_app_nil_r.
  - rewrite (for_each_lines (rule_line chain)). rewrite IH.
    unfold fill_lines. simpl. fold (fill_lines r table fill).
    by rewrite join_lines_app, string_app_assoc.
Qed.

Lemma createDataBuffer_stanzas (order : list table_visit)
    (r : gmap string (gmap string (list string))) :
  createDataBuffer order r = Ok (join_lines (stanza r <$> order)).
Proof.
  unfold createDataBuffer.
  match goal with
  | |- context [for_each order ?body EmptyString] =>
      assert (Hloop : forall buf,
                for_each order body buf = (buf +:+ join_lines (stanza r <$> order), None))
  end.
  { induction order as [|v order IH]; intros buf; simpl.
    - by rewrite string_app_nil_r.
    - unfold and_then at 1. unfold Fprintf at 1.
      unfold and_then at 1. rewrite (for_each_lines declare_line).
      unfold and_then at 1. rewrite for_each_fill.
      unfold Fprintf at 1. rewrite IH. unfold stanza.
      by rewrite !string_app_assoc. }
  by rewrite Hloop.
Qed.

Lemma valid_order_singleton (table : string) (chains : gmap string (list string))
    (order : list table_visit) :
  valid_order {[table := chains]} order <->
  exists declare fill,
    order = [mkVisit table declare fill] /\
    range_order chains declare /\ range_order chains fill.
Proof.
  unfold valid_order. rewrite range_order_singleton. split.
  - intros [Htables Hchains].
    destruct order as [|[table' declare fill] [|? ?]]; simplify_eq/=.
    rewrite Forall_singleton in Hchains. simpl in Hchains.
    rewrite lookup_singleton_eq in Hchains. simpl in Hchains.
    by exists declare, fill.
  - intros (declare & fill & -> & Hdeclare & Hfill). split; [done|].
    rewrite Forall_singleton. simpl. rewrite lookup_singleton_eq. simpl. done.
Qed.

Lemma valid_order_empty (order : list table_visit) :
  valid_order ∅ order <-> order = [].
Proof.
  unfold valid_order, range_order. rewrite map_to_list_empty. simpl. split.
  - intros [Htables _]. apply Permutation_nil_r in Htables.
    by destruct order.
  - intros ->. split; [done | constructor].
Qed.

(** X12. [createDataBuffer] has a buffer for every store and every order of
    visit: one stanza per visited table, and in a stanza the line of the
    table, then the declarations of the chains, then the rules, those of a
    chain in the order of its list, then [COMMIT]; no rule line comes before
    a declaration.  So [Commit] with a batched table returns what the commit
    function returns for this buffer, never an error of its own. *)
Theorem Commit_writes_stanzas {K : Type} `{BaseIPTables K}
    (b : BatchProvider K) (order : list table_visit) :
  let buf := join_lines (stanza (rules b) <$> order) in
  createDataBuffer order (rules b) = Ok buf /\
  (batchTables b <> ∅ -> Commit order b = (Returned (commitFunc b buf), b)).
Proof.
  intros buf. split; [apply createDataBuffer_stanzas|].
  intros Hbatch. unfold Commit.
  rewrite decide_False by (by rewrite map_size_empty_iff).
  by rewrite createDataBuffer_stanzas.
Qed.

Lemma Commit_writes_stanzas_witness :
  batchTables nat_provider <> ∅ /\
  Commit [mkVisit "nat" ["PREROUTING"] ["PREROUTING"]] nat_provider
  = (Returned (Some nat_buffer), nat_provider).
Proof.
  assert (Hbatch : batchTables nat_provider <> ∅).
  { intros Hempty. apply (f_equal (fun m => m !! "nat")) in Hempty. discriminate Hempty. }
  split; [exact Hbatch|].
  exact (proj2 (Commit_writes_stanzas nat_provider
                  [mkVisit "nat" ["PREROUTING"] ["PREROUTING"]]) Hbatch).
Defined.

(** X13. For a store of one table with one chain, the buffer does not depend
    on the order of visit: it is the line of the table, the declaration of
    the chain, one line per rule in the order of the list, and [COMMIT]. *)
Theorem buffer_of_one_chain (table chain : string) (l : list string)
    (order : list table_visit) :
  valid_order {[table := {[chain := l]}]} order ->
  createDataBuffer order {[table := {[chain := l]}]} =
  Ok ("*" +:+ table +:+ nl +:+ declare_line chain +:+
      join_lines (rule_line chain <$> l) +:+ "COMMIT" +:+ nl).
Proof.
  intros Horder. apply valid_order_singleton in Horder
    as (declare & fill & -> & Hdeclare & Hfill).
  apply range_order_singleton in Hdeclare as ->.
  apply range_order_singleton in Hfill as ->.
  rewrite createDataBuffer_stanzas. simpl. unfold stanza, fill_lines. simpl.
  rewrite lookup_singleton_eq. simpl. rewrite lookup_singleton_eq. simpl.
  by rewrite !string_app_nil_r, app_nil_r.
Qed.

Lemma buffer_of_one_chain_witness :
  valid_order {["mangle" := {["OUTPUT" := ["-j MARK"]]}]}
    [mkVisit "mangle" ["OUTPUT"] ["OUTPUT"]] /\
  createDataBuffer [mkVisit "mangle" ["OUTPUT"] ["OUTPUT"]]
    {["mangle" := {["OUTPUT" := ["-j MARK"]]}]} =
  Ok ("*" +:+ "mangle" +:+ nl +:+ declare_line "OUTPUT" +:+
      join_lines (rule_line "OUTPUT" <$> ["-j MARK"]) +:+ "COMMIT" +:+ nl).
Proof.
  assert (Horder : valid_order {["mangle" := {["OUTPUT" := ["-j MARK"]]}]}
                     [mkVisit "mangle" ["OUTPUT"] ["OUTPUT"]]).
  { apply valid_order_singleton. exists ["OUTPUT"], ["OUTPUT"].
    split; [done|]. split; by apply range_order_singleton. }
  split; [exact Horder|].
  exact (buffer_of_one_chain "mangle" "OUTPUT" ["-j MARK"] _ Horder).
Defined.

(** X14. With an empty store the buffer is empty: a provider that batches a
    table but holds no rules hands the empty buffer to the commit
    function. *)
Theorem Commit_of_empty_store {K : Type} `{BaseIPTables K}
    (b : BatchProvider K) (order : list table_visit) :
  rules b = ∅ -> valid_order (rules b) order -> batchTables b <> ∅ ->
  Commit order b = (Returned (commitFunc b EmptyString), b).
Proof.
  intros Hrules Horder Hbatch. rewrite Hrules in Horder.
  apply valid_order_empty in Horder as ->.
  unfold Commit. rewrite decide_False by (by rewrite map_size_empty_iff).
  by rewrite createDataBuffer_stanzas.
Qed.

Lemma Commit_of_empty_store_witness :
  rules (NewCustomBatchProvider tt (fun buf => Some buf) ["nat"]) = ∅ /\
  valid_order (rules (NewCustomBatchProvider tt (fun buf => Some buf) ["nat"])) [] /\
  batchTables (NewCustomBatchProvider tt (fun buf => Some buf) ["nat"]) <> ∅ /\
  Commit [] (NewCustomBatchProvider tt (fun buf => Some buf) ["nat"])
  = (Returned (Some EmptyString), NewCustomBatchProvider tt (fun buf => Some buf) ["nat"]).
Proof.
  assert (Horder : valid_order
                     (rules (NewCustomBatchProvider tt (fun buf => Some buf) ["nat"])) [])
    by (by apply valid_order_empty).
  assert (Hbatch : batchTables (NewCustomBatchProvider tt (fun buf => Some buf) ["nat"]) <> ∅).
  { intros Hempty. apply (f_equal (fun m => m !! "nat")) in Hempty. discriminate Hempty. }
  split; [reflexivity|]. split; [exact Horder|]. split; [exact Hbatch|].
  exact (Commit_of_empty_store (NewCustomBatchProvider tt (fun buf => Some buf) ["nat"])
           [] eq_refl Horder Hbatch).
Defined.

(** X15. Deleting the last chain of a table does not take the table out of
    the buffer: after [NewChain] and [DeleteChain] of the same chain on an
    empty store, the table is still cached without chains, and the buffer is
    the stanza of the table with no line between its header and
    [COMMIT]. *)
Theorem deleted_chain_leaves_stanza {K : Type} `{BaseIPTables K}
    (b : BatchProvider K) (table chain : string) (order : list table_visit) :
  is_Some (batchTables b !! table) -> rules b = ∅ ->
  let b' := after_all [DoNewChain table chain; DoDeleteChain table chain] b in
  valid_order (rules b') order ->
  rules b' = {[table := ∅]} /\
  createDataBuffer order (rules b') = Ok ("*" +:+ table +:+ nl +:+ "COMMIT" +:+ nl).
Proof.
  intros Hb Hrules b'.
  assert (Hstore : rules b' = {[table := ∅]}).
  { subst b'. unfold after_all. simpl.
    rewrite NewChain_batched by done. simpl.
    rewrite DeleteChain_batched by done. simpl.
    unfold put_chain. rewrite Hrules, lookup_empty. simpl.
    rewrite lookup_insert_eq. simpl.
    rewrite insert_insert_eq, delete_insert_eq, delete_empty.
    by rewrite insert_empty. }
  rewrite Hstore. intros Horder. split; [done|].
  apply valid_order_singleton in Horder as (declare & fill & -> & Hdeclare & Hfill).
  unfold range_order in Hdeclare, Hfill. rewrite map_to_list_empty in Hdeclare, Hfill.
  apply Permutation_nil_r in Hdeclare as ->. apply Permutation_nil_r in Hfill as ->.
  rewrite createDataBuffer_stanzas. simpl. unfold stanza. simpl.
  by rewrite !string_app_nil_r.
Qed.

Lemma deleted_chain_leaves_stanza_witness :
  is_Some (batchTables (NewCustomBatchProvider tt (fun buf => Some buf) ["nat"]) !! "nat") /\
  rules (NewCustomBatchProvider tt (fun buf => Some buf) ["nat"]) = ∅ /\
  valid_order
    (rules (after_all [DoNewChain "nat" "X"; DoDeleteChain "nat" "X"]
              (NewCustomBatchProvider tt (fun buf => Some buf) ["nat"])))
    [mkVisit "nat" [] []] /\
  createDataBuffer [mkVisit "nat" [] []]
    (rules (after_all [DoNewChain "nat" "X"; DoDeleteChain "nat" "X"]
              (NewCustomBatchProvider tt (fun buf => Some buf) ["nat"])))
  = Ok ("*" +:+ "nat" +:+ nl +:+ "COMMIT" +:+ nl).
Proof.
  assert (Hb : is_Some (batchTables (NewCustomBatchProvider tt (fun buf => Some buf) ["nat"])
                          !! "nat")) by (exists true; reflexivity).
  assert (Horder : valid_order
            (rules (after_all [DoNewChain "nat" "X"; DoDeleteChain "nat" "X"]
                      (NewCustomBatchProvider tt (fun buf => Some buf) ["nat"])))
            [mkVisit "nat" [] []]).
  { change (valid_order {["nat" := delete "X" (<["X" := []]> ∅)]} [mkVisit "nat" [] []]).
    rewrite delete_insert_eq, delete_empty.
    apply valid_order_singleton. exists [], []. split; [done|].
    unfold range_order. by rewrite map_to_list_empty. }
  split; [exact Hb|]. split; [reflexivity|]. split; [exact Horder|].
  exact (proj2 (deleted_chain_leaves_stanza
                  (NewCustomBatchProvider tt (fun buf => Some buf) ["nat"]) "nat" "X"
                  [mkVisit "nat" [] []] Hb eq_refl Horder)).
Defined.

(** X16. A provider built by [NewGoIPTablesProviderV4] commits through
    [iptables-restore --wait], one built by [NewGoIPTablesProviderV6]
    through [ip6tables-restore --wait], at every later time: when a table
    is batched, [Commit] feeds the buffer to this command and returns no
    error exactly when the command reports none; the error of the command
    comes back behind the text "Failed to execute iptables-restore: " for
    both. *)
Theorem Commit_runs_restore_command {K V : Type} `{BaseIPTables K} `{VersionLib V}
    (run : Exec) (ipt4 ipt6 : result K) (batchTables0 : list string)
    (b : BatchProvider K) (cmd : string) (ms : list method) (order : list table_visit) :
  (NewGoIPTablesProviderV4 run ipt4 batchTables0 = Ok b /\ cmd = "iptables-restore") \/
  (NewGoIPTablesProviderV6 run ipt6 batchTables0 = Ok b /\ cmd = "ip6tables-restore") ->
  batchTables b <> ∅ ->
  let b' := after_all ms b in
  let buf := join_lines (stanza (rules b') <$> order) in
  (Commit order b').1 =
  Returned (match (run cmd ["--wait"] buf).2 with
            | Some err => Some ("Failed to execute iptables-restore: " +:+ err)
            | None => None
            end).
Proof.
  intros Hnew Hbatch b' buf.
  assert (Hfunc : commitFunc b = restore run cmd /\ rules b = ∅).
  { destruct Hnew as [[Hnew ->] | [Hnew ->]].
    - unfold NewGoIPTablesProviderV4 in Hnew. destruct ipt4; by simplify_eq.
    - unfold NewGoIPTablesProviderV6 in Hnew. destruct ipt6; by simplify_eq. }
  destruct Hfunc as [Hfunc Hrules].
  destruct (after_all_configured (batchTables b) (commitFunc b) (restoreCmd b) ms b)
    as (Hsame & Hcommit & _ & _).
  { split; [done|]. split; [done|]. split; [done|].
    intros t. rewrite Hrules, lookup_empty. by intros [? ?]. }
  assert (Hbatch' : batchTables b' <> ∅) by (subst b'; by rewrite Hsame).
  assert (Hfunc' : commitFunc b' = restore run cmd) by (subst b'; by rewrite Hcommit).
  unfold Commit. rewrite decide_False by (by rewrite map_size_empty_iff).
  rewrite createDataBuffer_stanzas. simpl. fold buf.
  rewrite Hfunc'. unfold restore.
  by destruct (run cmd ["--wait"] buf) as [out [err|]].
Qed.

Lemma Commit_runs_restore_command_witness :
  ((@NewGoIPTablesProviderV4 unit (list Z) dotted.lib recent_iptables (Ok tt) ["nat"]
    = Ok (mkBatchProvider tt ∅ {["nat" := true]} (restore recent_iptables restoreCmdV4)
            restoreCmdV4) /\
    "iptables-restore" = "iptables-restore") \/
   (@NewGoIPTablesProviderV6 unit (list Z) dotted.lib recent_iptables (Ok tt) ["nat"]
    = Ok (mkBatchProvider tt ∅ {["nat" := true]} (restore recent_iptables restoreCmdV4)
            restoreCmdV4) /\
    "iptables-restore" = "ip6tables-restore")) /\
  batchTables (mkBatchProvider tt ∅ {["nat" := true]}
                 (restore recent_iptables restoreCmdV4) restoreCmdV4) <> ∅ /\
  (Commit [mkVisit "nat" ["PREROUTING"] ["PREROUTING"]]
     (after_all [DoAppend "nat" "PREROUTING" ["-p"; "tcp"]]
        (mkBatchProvider tt ∅ {["nat" := true]}
           (restore recent_iptables restoreCmdV4) restoreCmdV4))).1
  = Returned None.
Proof.
  assert (Hnew :
    (@NewGoIPTablesProviderV4 unit (list Z) dotted.lib recent_iptables (Ok tt) ["nat"]
     = Ok (mkBatchProvider tt ∅ {["nat" := true]} (restore recent_iptables restoreCmdV4)
             restoreCmdV4) /\
     "iptables-restore" = "iptables-restore") \/
    (@NewGoIPTablesProviderV6 unit (list Z) dotted.lib recent_iptables (Ok tt) ["nat"]
     = Ok (mkBatchProvider tt ∅ {["nat" := true]} (restore recent_iptables restoreCmdV4)
             restoreCmdV4) /\
     "iptables-restore" = "ip6tables-restore"))
    by (left; split; reflexivity).
  assert (Hbatch : batchTables (mkBatchProvider tt ∅ {["nat" := true]}
                                  (restore recent_iptables restoreCmdV4) restoreCmdV4) <> ∅).
  { intros Hempty. apply (f_equal (fun m => m !! "nat")) in Hempty. discriminate Hempty. }
  split; [exact Hnew|]. split; [exact Hbatch|].
  exact (@Commit_runs_restore_command unit (list Z) unit_ipt dotted.lib recent_iptables
           (Ok tt) (Ok tt) ["nat"] _ "iptables-restore"
           [DoAppend "nat" "PREROUTING" ["-p"; "tcp"]]
           [mkVisit "nat" ["PREROUTING"] ["PREROUTING"]] Hnew Hbatch).
Defined.

(** ** More about the resolver and the listener *)

Section MoreResolverFacts.

Import markedconn.
Context `{Runtime}.

Lemma getsockopt_keeps_err (getOrigDest : origDest) (v4Proto : bool) (fd : Z)
    (vars : locals) :
  is_Some (err vars) ->
  is_Some (err ((if v4Proto then getsockopt4 getOrigDest else getsockopt6 getOrigDest)
                  fd vars)).
Proof.
  intros Herr. destruct v4Proto; unfold getsockopt4, getsockopt6.
  - destruct (fill4 _ _ _ _ _) as [addr e1].
    destruct (e1 =? 0); simpl; [|by eexists].
    destruct (family4 addr =? AF_INET); simpl; [done | by eexists].
  - destruct (fill6 _ _ _ _ _) as [addr e1].
    destruct (e1 =? 0); simpl; [|by eexists].
    destruct (family6 addr =? AF_INET6); simpl; [done | by eexists].
Qed.

Lemma getsockopt_sets (getOrigDest : origDest) (v4Proto : bool) (fd : Z) (vars : locals) :
  let vars' := (if v4Proto then getsockopt4 getOrigDest else getsockopt6 getOrigDest)
                 fd vars in
  err vars' = None ->
  exists bytes,
    netIP vars' = Some bytes /\
    length bytes = (if v4Proto then 4 else 16)%nat /\
    0 <= port vars' < 65536.
Proof.
  destruct v4Proto; simpl; unfold getsockopt4, getsockopt6.
  - destruct (fill4 _ _ _ _ _) as [addr e1].
    destruct (e1 =? 0); simpl; [|done].
    destruct (family4 addr =? AF_INET); simpl; [|done].
    intros _. eexists. split; [done|]. split.
    + rewrite length_take, length_drop, length_vec_to_list. lia.
    + rewrite port_big_endian.
      pose proof (int_of_byte_range (data addr !!! 0%fin)).
      pose proof (int_of_byte_range (data addr !!! 1%fin)). lia.
  - destruct (fill6 _ _ _ _ _) as [addr e1].
    destruct (e1 =? 0); simpl; [|done].
    destruct (family6 addr =? AF_INET6); simpl; [|done].
    intros _. eexists. split; [done|]. split.
    + apply length_vec_to_list.
    + rewrite port_big_endian.
      pose proof (int_of_byte_range (port6 addr !!! 0%fin)).
      pose proof (int_of_byte_range (port6 addr !!! 1%fin)). lia.
Qed.

Lemma fold_getsockopt_keeps_err (getOrigDest : origDest) (v4Proto : bool)
    (fds : list Z) (vars : locals) :
  is_Some (err vars) ->
  is_Some (err (fold_left
                  (fun vars fd =>
                     (if v4Proto then getsockopt4 getOrigDest
                      else getsockopt6 getOrigDest) fd vars) fds vars)).
Proof.
  revert vars. induction fds as [|fd fds IH]; intros vars Herr; simpl; [done|].
  apply IH. by apply getsockopt_keeps_err.
Qed.

(** The decoding of the answer for IPv4, for a raw connection that runs the
    function once. *)
Lemma decode_sockaddr4 (getOrigDest : origDest) (fd : Z) (d : vec Go.byte 14) :
  fill4 getOrigDest SYS_GETSOCKOPT fd SOL_IP sockOptOriginalDst
  = (mkSockaddr4 AF_INET d, 0) ->
  getOriginalDestInternal (mkPassFD [fd] None) true getOrigDest =
  (Some [d !!! 2%fin; d !!! 3%fin; d !!! 4%fin; d !!! 5%fin],
   256 * Go.int_of_byte (d !!! 0%fin) + Go.int_of_byte (d !!! 1%fin), None).
Proof.
  intros Hfill. unfold getOriginalDestInternal, Control. simpl.
  unfold getsockopt4. rewrite Hfill. simpl. rewrite port_big_endian.
  inv_vec d; intros. reflexivity.
Qed.

End MoreResolverFacts.

(** X17. Once one of the runs of the query function that [Control] makes
    meets a query error or a wrong family, the resolver returns an error,
    no address and port 0, whatever the runs before and after it find and
    whatever [Control] returns. *)
Theorem resolver_error_is_sticky `{markedconn.Runtime}
    (rawConn : markedconn.passFD) (v4Proto : bool) (getOrigDest : markedconn.origDest)
    (fd : Z) :
  fd ∈ markedconn.ctl_fds rawConn ->
  let answer :=
    if v4Proto then
      let '(addr, e1) :=
        markedconn.fill4 getOrigDest markedconn.SYS_GETSOCKOPT fd markedconn.SOL_IP
          markedconn.sockOptOriginalDst in
      (markedconn.family4 addr, e1)
    else
      let '(addr, e1) :=
        markedconn.fill6 getOrigDest markedconn.SYS_GETSOCKOPT fd markedconn.SOL_IPV6
          markedconn.sockOptOriginalDst in
      (markedconn.family6 addr, e1) in
  answer.2 <> 0 \/ answer.1 <> expected_family v4Proto ->
  exists e, markedconn.getOriginalDestInternal rawConn v4Proto getOrigDest
            = (None, 0, Some e).
Proof.
  intros Hfd answer Hbad.
  unfold markedconn.getOriginalDestInternal, markedconn.Control.
  assert (Herr : is_Some (markedconn.err
            (fold_left
               (fun vars fd0 =>
                  (if v4Proto then markedconn.getsockopt4 getOrigDest
                   else markedconn.getsockopt6 getOrigDest) fd0 vars)
               (markedconn.ctl_fds rawConn) (markedconn.mkLocals None 0 None)))).
  { generalize (markedconn.mkLocals None 0 None).
    induction (markedconn.ctl_fds rawConn) as [|fd0 fds IH]; intros vars;
      [by apply elem_of_nil in Hfd|].
    simpl. apply elem_of_cons in Hfd as [<-|Hfd]; [|by apply IH].
    apply fold_getsockopt_keeps_err.
    destruct (getsockopt_rejects getOrigDest v4Proto fd vars Hbad) as [e He].
    rewrite He. by eexists. }
  destruct Herr as [e He]. simpl.
  destruct v4Proto; rewrite He; destruct (markedconn.ctl_err rawConn); by eexists.
Qed.

Lemma resolver_error_is_sticky_witness :
  12 ∈ markedconn.ctl_fds (markedconn.mkPassFD [11; 12; 13] None) /\
  ((markedconn.family4 (markedconn.mkSockaddr4 markedconn.AF_INET6
                          (markedconn.data sample.reply4)), 0).2 <> 0 \/
   (markedconn.family4 (markedconn.mkSockaddr4 markedconn.AF_INET6
                          (markedconn.data sample.reply4)), 0).1 <> expected_family true) /\
  exists e,
    markedconn.getOriginalDestInternal (H := sample.runtime)
      (markedconn.mkPassFD [11; 12; 13] None) true sample.confused_kernel
    = (None, 0, Some e).
Proof.
  assert (Hfd : 12 ∈ markedconn.ctl_fds (markedconn.mkPassFD [11; 12; 13] None)).
  { simpl. apply elem_of_cons. right. apply elem_of_cons. by left. }
  assert (Hbad :
    (markedconn.family4 (markedconn.mkSockaddr4 markedconn.AF_INET6
                           (markedconn.data sample.reply4)), 0).2 <> 0 \/
    (markedconn.family4 (markedconn.mkSockaddr4 markedconn.AF_INET6
                           (markedconn.data sample.reply4)), 0).1 <> expected_family true).
  { right. simpl. discriminate. }
  split; [exact Hfd|]. split; [exact Hbad|].
  exact (resolver_error_is_sticky (H := sample.runtime)
           (markedconn.mkPassFD [11; 12; 13] None) true sample.confused_kernel 12
           Hfd Hbad).
Defined.

(** X18. When the resolver returns without error, the port is between 0 and
    65535; when [Control] ran the query function at least once, the address
    has 4 bytes for IPv4 and 16 bytes for IPv6; when [Control] ran it not at
    all, there is no address and the port is 0, and still no error. *)
Theorem resolver_success_shape `{markedconn.Runtime}
    (rawConn : markedconn.passFD) (v4Proto : bool) (getOrigDest : markedconn.origDest)
    (ip : markedconn.IP) (port : Z) :
  markedconn.getOriginalDestInternal rawConn v4Proto getOrigDest = (ip, port, None) ->
  0 <= port < 65536 /\
  (markedconn.ctl_fds rawConn = [] -> ip = None /\ port = 0) /\
  (markedconn.ctl_fds rawConn <> [] ->
   exists bytes, ip = Some bytes /\ length bytes = (if v4Proto then 4 else 16)%nat).
Proof.
  unfold markedconn.getOriginalDestInternal, markedconn.Control.
  destruct (markedconn.ctl_fds rawConn) as [|fd fds _] using rev_ind.
  - simpl. destruct (markedconn.ctl_err rawConn); [done|].
    intros [= <- <-]. split; [lia|]. split; [done|]. by intros [].
  - rewrite fold_left_app. simpl.
    set (vars := fold_left _ fds _).
    destruct (markedconn.ctl_err rawConn); [done|].
    destruct (markedconn.err _) as [e|] eqn:Herr; [done|].
    intros [= <- <-].
    destruct (getsockopt_sets getOrigDest v4Proto fd vars) as (bytes & Hip & Hlen & Hport).
    { by destruct v4Proto. }
    split; [by destruct v4Proto|]. split.
    + intros Hnil. by apply app_eq_nil in Hnil as [_ ?].
    + intros _. exists bytes. by destruct v4Proto.
Qed.

Lemma resolver_success_shape_witness :
  markedconn.getOriginalDestInternal (H := sample.runtime)
    (markedconn.mkPassFD [12] None) true sample.kernel
  = (Some [Byte.x0a; Byte.x01; Byte.x02; Byte.x03], 8080, None) /\
  0 <= 8080 < 65536 /\
  (markedconn.ctl_fds (markedconn.mkPassFD [12] None) <> [] ->
   exists bytes, Some [Byte.x0a; Byte.x01; Byte.x02; Byte.x03] = Some bytes /\
                 length bytes = 4%nat).
Proof.
  split; [reflexivity|].
  destruct (resolver_success_shape (H := sample.runtime) (markedconn.mkPassFD [12] None)
              true sample.kernel (Some [Byte.x0a; Byte.x01; Byte.x02; Byte.x03]) 8080
              eq_refl) as (Hport & _ & Hsome).
  split; [exact Hport | exact Hsome].
Defined.

(** X19. [Accept] returns a connection or an error, never both and never
    neither, and on every path it leaves the open connections as the
    [Accept] of the wrapped listener left them.  A connection that it
    returns wraps the accepted TCP connection, and the local address that
    the wrapper reports is the original destination that the resolver
    recovered for this connection. *)
Theorem Accept_returns_connection_or_error `{markedconn.Runtime}
    (l : markedconn.ProxiedListener) (open : markedconn.sockets) :
  let inner := markedconn.netListener_Accept l open in
  let res := markedconn.Accept l open in
  (is_Some res.1.1 <-> res.1.2 = None) /\
  res.2 = inner.2 /\
  forall p,
    res.1.1 = Some p ->
    exists c ip port,
      inner.1 = (Some (markedconn.ConnTCP c), None) /\
      markedconn.GetOriginalDestination c = (ip, port, None) /\
      markedsocket.GetTCPConnection p = c /\
      markedsocket.LocalAddr p = markedsocket.mkTCPAddr ip port /\
      markedsocket.ProxiedConnection_GetOriginalDestination p = (ip, port).
Proof.
  intros inner res. subst inner res. unfold markedconn.Accept.
  destruct (markedconn.netListener_Accept l open) as [[nc err0] open']. simpl.
  destruct err0 as [e0|]; simpl.
  { split; [split; [by intros [? ?] | done]|]. split; [done|]. by intros p. }
  destruct nc as [[c|id]|]; simpl.
  - destruct (markedconn.GetOriginalDestination c) as [[ip port] [e|]] eqn:Hdest; simpl.
    + split; [split; [by intros [? ?] | done]|]. split; [done|]. by intros p.
    + split; [split; [done | by eexists]|]. split; [done|].
      intros p [= <-]. by exists c, ip, port.
  - split; [split; [by intros [? ?] | done]|]. split; [done|]. by intros p.
  - split; [split; [by intros [? ?] | done]|]. split; [done|]. by intros p.
Qed.

(** X20. From the factory to the wrapper, for IPv4: when [Listen] gives a
    listener, [NewSocketListener] returns a listener with the mark; when
    this listener accepts a TCP connection whose local address is an IPv4
    address and the kernel answers the query on its descriptor with the tag
    [AF_INET], [Accept] returns a wrapper of this connection whose local
    address is the address in bytes 2 to 5 and the big-endian port in bytes
    0 and 1 of the data of the answer. *)
Theorem redirected_connection_reports_destination {S : Type}
    `{markedsocket.Syscalls S} `{markedconn.Runtime}
    (Listen :
       (string -> string -> markedconn.passFD -> S * list markedsocket.log_entry ->
        error * (S * list markedsocket.log_entry)) ->
       string -> string -> S * list markedsocket.log_entry ->
       result (markedconn.sockets -> (option markedconn.Conn * error) * markedconn.sockets)
       * (S * list markedsocket.log_entry))
    (port : string) (mark : Z) (st st' : S * list markedsocket.log_entry)
    (accept : markedconn.sockets ->
              (option markedconn.Conn * error) * markedconn.sockets)
    (open open' : markedconn.sockets) (c : markedconn.TCPConn) (fd : Z)
    (host service : string) (d : vec Go.byte 14) :
  Listen (markedsocket.listen_Control mark) "tcp" port st = (Ok accept, st') ->
  accept open = ((Some (markedconn.ConnTCP c), None), open') ->
  markedconn.SyscallConn c = (markedconn.mkPassFD [fd] None, None) ->
  markedconn.SplitHostPort (markedconn.LocalAddr_String c) = ((host, service), None) ->
  markedconn.To4 (markedconn.ParseIP host) <> None ->
  markedconn.fill4 markedconn.Syscall6 markedconn.SYS_GETSOCKOPT fd markedconn.SOL_IP
    markedconn.sockOptOriginalDst
  = (markedconn.mkSockaddr4 markedconn.AF_INET d, 0) ->
  exists l p,
    markedsocket.NewSocketListener Listen port mark st = (Ok l, st') /\
    markedconn.mark l = mark /\
    markedconn.Accept l open = ((Some p, None), open') /\
    markedsocket.GetTCPConnection p = c /\
    markedsocket.LocalAddr p =
    markedsocket.mkTCPAddr (Some [d !!! 2%fin; d !!! 3%fin; d !!! 4%fin; d !!! 5%fin])
      (256 * Go.int_of_byte (d !!! 0%fin) + Go.int_of_byte (d !!! 1%fin)).
Proof.
  intros Hlisten Haccept Hraw Hsplit Hv4 Hfill.
  exists (markedconn.mkProxiedListener accept mark),
    (markedconn.mkProxiedConnection
       (Some [d !!! 2%fin; d !!! 3%fin; d !!! 4%fin; d !!! 5%fin])
       (256 * Go.int_of_byte (d !!! 0%fin) + Go.int_of_byte (d !!! 1%fin)) c).
  split.
  { unfold markedsocket.NewSocketListener. by rewrite Hlisten. }
  split; [done|]. split; [|split; reflexivity].
  unfold markedconn.Accept. simpl. rewrite Haccept.
  unfold markedconn.GetOriginalDestination. rewrite Hraw, Hsplit.
  rewrite bool_decide_eq_true_2 by done.
  by rewrite (decode_sockaddr4 _ _ _ Hfill).
Qed.

Lemma redirected_connection_reports_destination_witness :
  sample_Listen (markedsocket.listen_Control (H := willing_syscalls) 100) "tcp" ":5000"
    (tt, [])
  = (Ok (markedconn.netListener_Accept sample.redirected_listener), (tt, [])) /\
  markedconn.netListener_Accept sample.redirected_listener ∅
  = ((Some (markedconn.ConnTCP sample.redirected_conn), None), {[8%nat]} ∪ ∅) /\
  markedconn.SyscallConn sample.redirected_conn
  = (markedconn.mkPassFD [12] None, None) /\
  markedconn.SplitHostPort (Runtime := sample.runtime)
    (markedconn.LocalAddr_String sample.redirected_conn)
  = (("192.168.0.5", "4000"), None) /\
  markedconn.To4 (Runtime := sample.runtime)
    (markedconn.ParseIP (Runtime := sample.runtime) "192.168.0.5") <> None /\
  markedconn.fill4 (markedconn.Syscall6 (Runtime := sample.runtime))
    markedconn.SYS_GETSOCKOPT 12 markedconn.SOL_IP markedconn.sockOptOriginalDst
  = (markedconn.mkSockaddr4 markedconn.AF_INET (markedconn.data sample.reply4), 0) /\
  exists l p,
    markedsocket.NewSocketListener (H := willing_syscalls) sample_Listen ":5000" 100 (tt, [])
    = (Ok l, (tt, [])) /\
    markedconn.mark l = 100 /\
    markedconn.Accept (H := sample.runtime) l ∅ = ((Some p, None), {[8%nat]} ∪ ∅) /\
    markedsocket.GetTCPConnection p = sample.redirected_conn /\
    markedsocket.LocalAddr p =
    markedsocket.mkTCPAddr (Some [Byte.x0a; Byte.x01; Byte.x02; Byte.x03]) 8080.
Proof.
  assert (Hv4 : markedconn.To4 (Runtime := sample.runtime)
                  (markedconn.ParseIP (Runtime := sample.runtime) "192.168.0.5") <> None)
    by discriminate.
  split; [reflexivity|]. split; [reflexivity|]. split; [reflexivity|].
  split; [reflexivity|]. split; [exact Hv4|]. split; [reflexivity|].
  exact (redirected_connection_reports_destination (H := willing_syscalls)
           (H0 := sample.runtime) sample_Listen ":5000" 100 (tt, []) (tt, [])
           (markedconn.netListener_Accept sample.redirected_listener) ∅ ({[8%nat]} ∪ ∅)
           sample.redirected_conn 12 "192.168.0.5" "4000" (markedconn.data sample.reply4)
           eq_refl eq_refl eq_refl eq_refl Hv4 eq_refl).
Defined.

(** ** The socket options of the dialer and of the listener *)

(** X21. The functions that [DialMarkedWithContext] and [NewSocketListener]
    hand to [Control] set their options as far as they can: on the
    descriptor they try the blocking mode, the mark and option 30 of TCP (the
    dialer), the mark and option 23 of TCP with 16384 (the listener), each
    one whether or not the ones before failed, and what [Control] returns is
    the error of the raw connection alone; a failed option only adds to the
    log. *)
Theorem socket_options_are_best_effort {S : Type} `{markedsocket.Syscalls S}
    (t : markedsocket.Traced S) (log : list markedsocket.log_entry)
    (mark fd : Z) (network address : string) (ctl : error) :
  let dial :=
    markedsocket.dial_Control (H := markedsocket.Traced_syscalls) mark network address
      (markedconn.mkPassFD [fd] ctl) (t, log) in
  let listen :=
    markedsocket.listen_Control (H := markedsocket.Traced_syscalls) mark network address
      (markedconn.mkPassFD [fd] ctl) (t, log) in
  (dial.1 = ctl /\
   markedsocket.trace dial.2.1 =
   markedsocket.trace t ++
   [markedsocket.SysSetNonblock fd false;
    markedsocket.SysSetsockoptInt fd markedsocket.SOL_SOCKET markedsocket.SO_MARK mark;
    markedsocket.SysSetsockoptInt fd markedsocket.SOL_TCP 30 1] /\
   log `prefix_of` dial.2.2) /\
  (listen.1 = ctl /\
   markedsocket.trace listen.2.1 =
   markedsocket.trace t ++
   [markedsocket.SysSetsockoptInt fd markedsocket.SOL_SOCKET markedsocket.SO_MARK mark;
    markedsocket.SysSetsockoptInt fd markedsocket.SOL_TCP 23 16384] /\
   log `prefix_of` listen.2.2).
Proof.
  intros dial listen. subst dial listen.
  unfold markedsocket.dial_Control, markedsocket.listen_Control, markedsocket.raw_Control.
  simpl. unfold markedsocket.dial_options, markedsocket.listen_options. simpl.
  assert (Hlogged : forall lvl msg e (log0 : list markedsocket.log_entry),
            log0 `prefix_of` markedsocket.logged lvl msg e log0).
  { intros lvl msg [e|] log0; simpl; [by apply prefix_app_r | done]. }
  split.
  - destruct (markedsocket.SetNonblock fd false (markedsocket.traced t)) as [e1 s1].
    simpl.
    destruct (markedsocket.SetsockoptInt fd markedsocket.SOL_SOCKET markedsocket.SO_MARK
                mark s1) as [e2 s2]. simpl.
    destruct (markedsocket.SetsockoptInt fd markedsocket.SOL_TCP 30 1 s2) as [e3 s3].
    simpl. split; [done|]. split; [by rewrite <- !app_assoc|].
    etrans; [apply Hlogged|]. etrans; [apply Hlogged|]. apply Hlogged.
  - destruct (markedsocket.SetsockoptInt fd markedsocket.SOL_SOCKET markedsocket.SO_MARK
                mark (markedsocket.traced t)) as [e1 s1]. simpl.
    destruct (markedsocket.SetsockoptInt fd markedsocket.SOL_TCP 23 (16 * 1024) s1)
      as [e2 s2]. simpl.
    split; [done|]. split; [by rewrite <- !app_assoc|].
    etrans; [apply Hlogged|]. apply Hlogged.
Qed.

(** X22. A mark that cannot be set does not fail the dial: when setting the
    mark fails on the descriptor, the dialer's function still lets [Control]
    return the error of the raw connection alone, and the failure is found
    in the log, at error level, under "Failed to assing mark to socket". *)
Theorem failed_mark_is_only_logged {S : Type} `{markedsocket.Syscalls S}
    (s : S) (log : list markedsocket.log_entry) (mark fd : Z)
    (network address : string) (ctl : error) :
  (forall s0, is_Some (markedsocket.SetsockoptInt fd markedsocket.SOL_SOCKET
                         markedsocket.SO_MARK mark s0).1) ->
  let dial :=
    markedsocket.dial_Control mark network address (markedconn.mkPassFD [fd] ctl) (s, log) in
  dial.1 = ctl /\
  exists e,
    markedsocket.mkLog markedsocket.ErrorLevel "Failed to assing mark to socket" e
    ∈ dial.2.2.
Proof.
  intros Hmark dial. subst dial.
  unfold markedsocket.dial_Control, markedsocket.raw_Control. simpl.
  unfold markedsocket.dial_options.
  destruct (markedsocket.SetNonblock fd false s) as [e1 s1]. simpl.
  pose proof (Hmark s1) as Hm.
  destruct (markedsocket.SetsockoptInt fd markedsocket.SOL_SOCKET markedsocket.SO_MARK
              mark s1) as [e2 s2]. simpl in *.
  destruct (markedsocket.SetsockoptInt fd markedsocket.SOL_TCP 30 1 s2) as [e3 s3].
  simpl. destruct Hm as [x2 ->]. split; [done|]. exists x2.
  assert (Hin : markedsocket.mkLog markedsocket.ErrorLevel
                  "Failed to assing mark to socket" x2
                ∈ markedsocket.logged markedsocket.ErrorLevel
                    "Failed to assing mark to socket" (Some x2)
                    (markedsocket.logged markedsocket.ErrorLevel
                       "unable to set socket options" e1 log)).
  { simpl. apply elem_of_app. right. apply elem_of_cons. by left. }
  destruct e3; simpl; [apply elem_of_app; by left | done].
Qed.

Lemma failed_mark_is_only_logged_witness :
  (forall s0,
     is_Some (markedsocket.SetsockoptInt (Syscalls := unwilling_syscalls)
                5 markedsocket.SOL_SOCKET markedsocket.SO_MARK 100 s0).1) /\
  (markedsocket.dial_Control (H := unwilling_syscalls) 100 "tcp" "10.1.2.3:80"
     (markedconn.mkPassFD [5] None) (tt, [])).1 = None.
Proof.
  assert (Hmark : forall s0,
            is_Some (markedsocket.SetsockoptInt (Syscalls := unwilling_syscalls)
                       5 markedsocket.SOL_SOCKET markedsocket.SO_MARK 100 s0).1)
    by (intros; by eexists).
  split; [exact Hmark|].
  exact (proj1 (failed_mark_is_only_logged (H := unwilling_syscalls) tt [] 100 5
                  "tcp" "10.1.2.3:80" None Hmark)).
Defined.

(** ** The addresses of the host *)

Lemma fold_addresses (IP_String : list Go.byte -> string) (ips : list (list Go.byte))
    (ipmap : gset string) (s : string) :
  s ∈ fold_left (fun ipmap ip => {[IP_String ip]} ∪ ipmap) ips ipmap <->
  s ∈ ipmap \/ exists ip, ip ∈ ips /\ IP_String ip = s.
Proof.
  revert ipmap. induction ips as [|ip ips IH]; intros ipmap; simpl.
  - split; [by left | intros [|(ip & ?%elem_of_nil & _)]; done].
  - rewrite IH, elem_of_union, elem_of_singleton. split.
    + intros [[->|]|(ip' & Hin & <-)]; [right|by left|right].
      * exists ip. split; [by left | done].
      * exists ip'. split; [by right | done].
    + intros [|(ip' & Hin & <-)]; [by left; right|].
      apply elem_of_cons in Hin as [->|Hin]; [by left; left|].
      right. by exists ip'.
Qed.

(** X23. [GetInterfaces] returns the texts of the addresses of the
    interfaces that came back, each once and nothing else, whether or not an
    error came back with them: a text is in the result exactly when it is
    the text of an address of one of the interfaces. *)
Theorem GetInterfaces_collects_addresses
    (info : list markedsocket.NetworkInterface * error)
    (IP_String : list Go.byte -> string) (log : list markedsocket.log_entry) (s : string) :
  s ∈ (markedsocket.GetInterfaces info IP_String log).1 <->
  exists iface ip,
    iface ∈ info.1 /\ ip ∈ markedsocket.IPs iface /\ IP_String ip = s.
Proof.
  unfold markedsocket.GetInterfaces. destruct info as [ifaces err0]. simpl.
  assert (Hfold : forall ipmap : gset string,
    s ∈ fold_left
          (fun ipmap iface =>
             fold_left (fun ipmap ip => {[IP_String ip]} ∪ ipmap)
               (markedsocket.IPs iface) ipmap) ifaces ipmap <->
    s ∈ ipmap \/
    exists iface ip, iface ∈ ifaces /\ ip ∈ markedsocket.IPs iface /\ IP_String ip = s).
  { induction ifaces as [|iface ifaces IH]; intros ipmap; simpl.
    - split; [by left | intros [|(iface & ip & ?%elem_of_nil & _)]; done].
    - rewrite IH, fold_addresses. split.
      + intros [[|(ip & Hin & <-)]|(iface' & ip & Hin & Hip & <-)]; [by left|right..].
        * exists iface, ip. split; [by left | done].
        * exists iface', ip. split; [by right | done].
      + intros [|(iface' & ip & Hin & Hip & <-)]; [by left; left|].
        apply elem_of_cons in Hin as [->|Hin]; [left; right; by exists ip|].
        right. by exists iface', ip. }
  rewrite Hfold. split; [intros [?%elem_of_empty|]; done | by right].
Qed.

(** ** More about the version pattern *)

Lemma scan_AfterDot_None (s : string) :
  scan AfterDot s = None ->
  match s with
  | EmptyString => True
  | String d _ => is_digit d = false
  end.
Proof.
  destruct s as [|d s]; [done|]. simpl.
  destruct (is_digit d) eqn:Hd; [|done].
  destruct (scan_InGroup s) as [t Ht]. by rewrite Ht.
Qed.

(** A match of [scan] cannot be made longer. *)
Lemma scan_stops (s : string) (q : scan_state) (t : string) :
  scan q s = Some t -> exists rest, s = t +:+ rest /\ stops_at rest.
Proof.
  revert q t. induction s as [|c s IH]; intros q t Hscan; simpl in Hscan.
  - destruct (accepting q); simplify_eq. by exists EmptyString.
  - destruct (step q c) as [q'|] eqn:Hstep.
    + destruct (scan q' s) as [t'|] eqn:Hrest.
      * simplify_eq. destruct (IH _ _ Hrest) as (rest & -> & Hstop). by exists rest.
      * destruct q; simpl in Hscan; simplify_eq.
        exists (String c s). split; [done|]. simpl in Hstep.
        destruct (is_digit c) eqn:Hd; simplify_eq.
        { destruct (scan_InGroup s) as [t Ht]. by rewrite Ht in Hrest. }
        destruct (is_dot c) eqn:Hdot; simplify_eq.
        split; [exact Hd|]. intros _. by apply scan_AfterDot_None.
    + destruct q; simpl in Hscan; simplify_eq.
      exists (String c s). split; [done|]. simpl in Hstep.
      destruct (is_digit c) eqn:Hd; simplify_eq.
      destruct (is_dot c) eqn:Hdot; simplify_eq.
      split; [exact Hd | intros Hdot'; congruence].
Qed.

Lemma version_prefix_frame (s rest tail : string) :
  version_prefix s rest -> version_prefix (s +:+ tail) (rest +:+ tail).
Proof.
  intros (mid & Hnum & Hg). exists (mid +:+ tail).
  split; [by apply number_frame | by apply groups_frame].
Qed.

(** X24. What [FindStringSubmatch] finds is leftmost and longest: the output
    is a text without a version token, then [v], then the text found, then a
    rest in front of which the match cannot go on: the rest is empty, or
    starts with a character that is neither a digit nor a dot followed by a
    digit.  So a version is never cut short. *)
Theorem FindStringSubmatch_leftmost_longest (out : string) (found : list string) :
  FindStringSubmatch out = Some found ->
  exists pre t rest,
    found = [String "v"%char t; t; last_group t] /\
    out = pre +:+ String "v"%char (t +:+ rest) /\
    version_text t /\ stops_at rest /\ ~ has_version_token pre.
Proof.
  revert found. induction out as [|c out IH]; intros found; simpl; [done|].
  assert (Hlater : FindStringSubmatch out = Some found ->
                   (Ascii.eqb c "v" = false \/ scan AtNumber out = None) ->
                   exists pre t rest,
                     found = [String "v"%char t; t; last_group t] /\
                     String c out = pre +:+ String "v"%char (t +:+ rest) /\
                     version_text t /\ stops_at rest /\ ~ has_version_token pre).
  { intros Hfind Hhere.
    destruct (IH _ Hfind) as (pre & t & rest & -> & Hout & Ht & Hstop & Hpre).
    exists (String c pre), t, rest. split; [done|]. split; [by rewrite Hout|].
    split; [done|]. split; [done|].
    intros Htok. inversion Htok as [s rest0 Hprefix | c' s Hin]; subst; [|done].
    destruct Hhere as [Hv | Hnone]; [done|].
    apply (version_prefix_frame _ _ (String "v"%char (t +:+ rest))) in Hprefix.
    destruct (scan_complete _ _ Hprefix) as [t0 Ht0]. by rewrite Ht0 in Hnone. }
  destruct (Ascii.eqb c "v") eqn:Hv; [|intros Hfind; apply Hlater; [done | by left]].
  destruct (scan AtNumber out) as [t|] eqn:Hscan;
    [|intros Hfind; apply Hlater; [done | by right]].
  intros [= <-]. apply Ascii.eqb_eq in Hv as ->.
  destruct (scan_stops _ _ _ Hscan) as (rest & -> & Hstop).
  apply scan_sound in Hscan as [Hq _].
  exists EmptyString, t, rest. split; [done|]. split; [done|].
  split; [done|]. split; [done|]. intros Htok. inversion Htok.
Qed.

Lemma FindStringSubmatch_leftmost_longest_witness :
  FindStringSubmatch "iptables-restore v1.6.21 (legacy)"
  = Some ["v1.6.21"; "1.6.21"; ".21"] /\
  exists pre t rest,
    ["v1.6.21"; "1.6.21"; ".21"] = [String "v"%char t; t; last_group t] /\
    "iptables-restore v1.6.21 (legacy)" = pre +:+ String "v"%char (t +:+ rest) /\
    version_text t /\ stops_at rest /\ ~ has_version_token pre.
Proof.
  split; [reflexivity|].
  exact (FindStringSubmatch_leftmost_longest "iptables-restore v1.6.21 (legacy)"
           ["v1.6.21"; "1.6.21"; ".21"] eq_refl).
Defined.

(** ** What a panic of [Insert] leaves behind *)

(** X25. The placeholder of a panicking [Insert] stays in the store: after
    [Insert] at a position below 1 into an empty store, on a batched table,
    the chain holds the one rule [newvalue], and the buffer of a later
    [Commit] carries the line that appends [newvalue] to the chain. *)
Theorem panicked_Insert_leaves_placeholder {K : Type} `{BaseIPTables K}
    (b : BatchProvider K) (table chain : string) (pos : Z) (rulespec : list string)
    (order : list table_visit) :
  is_Some (batchTables b !! table) -> Go.is_int pos -> pos <= 0 -> rules b = ∅ ->
  let b' := after (DoInsert table chain pos rulespec) b in
  valid_order (rules b') order ->
  rules b' = {[table := {[chain := ["newvalue"]]}]} /\
  createDataBuffer order (rules b') =
  Ok ("*" +:+ table +:+ nl +:+ declare_line chain +:+
      rule_line chain "newvalue" +:+ "COMMIT" +:+ nl).
Proof.
  intros Hb Hint Hpos Hrules b'.
  assert (Hstore : rules b' = {[table := {[chain := ["newvalue"]]}]}).
  { subst b'. simpl. rewrite Insert_batched_below; [|done..|].
    - simpl. unfold chain_of, put_chain. rewrite Hrules, lookup_empty. simpl.
      by rewrite insert_empty, insert_empty.
    - unfold chain_of. rewrite Hrules, lookup_empty. simpl.
      unfold Go.len, Go.int_max. simpl. lia. }
  rewrite Hstore. intros Horder. split; [done|].
  apply valid_order_singleton in Horder as (declare & fill & -> & Hdeclare & Hfill).
  apply range_order_singleton in Hdeclare as ->.
  apply range_order_singleton in Hfill as ->.
  rewrite createDataBuffer_stanzas. simpl. unfold stanza, fill_lines. simpl.
  rewrite lookup_singleton_eq. simpl. rewrite lookup_singleton_eq. simpl.
  by rewrite !string_app_nil_r.
Qed.

Lemma panicked_Insert_leaves_placeholder_witness :
  is_Some (batchTables (NewCustomBatchProvider tt (fun buf => Some buf) ["nat"]) !! "nat") /\
  Go.is_int 0 /\ 0 <= 0 /\
  rules (NewCustomBatchProvider tt (fun buf => Some buf) ["nat"]) = ∅ /\
  valid_order
    (rules (after (DoInsert "nat" "PREROUTING" 0 ["-j"; "DNAT"])
              (NewCustomBatchProvider tt (fun buf => Some buf) ["nat"])))
    [mkVisit "nat" ["PREROUTING"] ["PREROUTING"]] /\
  rules (after (DoInsert "nat" "PREROUTING" 0 ["-j"; "DNAT"])
           (NewCustomBatchProvider tt (fun buf => Some buf) ["nat"]))
  = {["nat" := {["PREROUTING" := ["newvalue"]]}]}.
Proof.
  assert (Hb : is_Some (batchTables (NewCustomBatchProvider tt (fun buf => Some buf) ["nat"])
                          !! "nat")) by (exists true; reflexivity).
  assert (Hint : Go.is_int 0) by (unfold Go.is_int, Go.int_min, Go.int_max; lia).
  assert (Hpos : 0 <= 0) by lia.
  assert (Horder : valid_order
            (rules (after (DoInsert "nat" "PREROUTING" 0 ["-j"; "DNAT"])
                      (NewCustomBatchProvider tt (fun buf => Some buf) ["nat"])))
            [mkVisit "nat" ["PREROUTING"] ["PREROUTING"]]).
  { change (valid_order (<["nat" := <["PREROUTING" := ["newvalue"]]> (<["PREROUTING" := []]> ∅)]>
                           (<["nat" := <["PREROUTING" := []]> ∅]> (<["nat" := ∅]> ∅)))
              [mkVisit "nat" ["PREROUTING"] ["PREROUTING"]]).
    rewrite !insert_insert_eq, !insert_empty.
    apply valid_order_singleton. exists ["PREROUTING"], ["PREROUTING"].
    split; [done|]. split; by apply range_order_singleton. }
  split; [exact Hb|]. split; [exact Hint|]. split; [exact Hpos|].
  split; [reflexivity|]. split; [exact Horder|].
  exact (proj1 (panicked_Insert_leaves_placeholder
                  (NewCustomBatchProvider tt (fun buf => Some buf) ["nat"])
                  "nat" "PREROUTING" 0 ["-j"; "DNAT"]
                  [mkVisit "nat" ["PREROUTING"] ["PREROUTING"]]
                  Hb Hint Hpos eq_refl Horder)).
Defined.
